(** * FlyweightTreeNode: a shallow embedding of
    [gallery-flyweight-tree/js/flyweight-tree-node.js]

    The tree is a heap of plain records linked by references
    ([children], [_parent], [_held]); FlyweightTreeNode instances are a
    second kind of object, each with a [_node] slot that the manager
    slides over one record at a time.  Methods are state transformers
    returning [option]: [None] stands for a run that does not return
    normally (a TypeError on [null]/[undefined], or a loop that never
    ends).

    The page is outside: [Y.one(selector)] is taken to find its element,
    and the requests made on it ([replaceClass], [setContent]) are
    written down in the [trace] of the state, as are the calls of the
    dynamic loader, which answers later through [_dynamicLoadReturn]. *)

From Stdlib Require Import ZArith Lia Ascii String.
From stdpp Require Import base option list gmap strings.

Local Open Scope Z_scope.

(** ** Values *)

(** Identity of a plain record of the configuration tree. *)
Abbreviation loc := nat (only parsing).
(** Identity of a FlyweightTreeNode instance. *)
Abbreviation wid := nat (only parsing).

(** The two kinds of objects whose references meet in this code.
    [===] and [Array.prototype.indexOf] compare them by identity. *)
Inductive obj :=
| ORecord (l : loc)
| OWrapper (w : wid).

Global Instance obj_eq_dec : EqDecision obj.
Proof. solve_decision. Defined.

(** JavaScript values as far as their truthiness is concerned. *)
Inductive jsval :=
| JUndefined
| JNull
| JBool (b : bool)
| JNum (n : Z)
| JStr (s : string)
| JObj (o : obj).

Global Instance jsval_eq_dec : EqDecision jsval.
Proof. solve_decision. Defined.

(** [!!v] *)
Definition truthy (v : jsval) : bool :=
  match v with
  | JUndefined | JNull => false
  | JBool b => b
  | JNum n => negb (n =? 0)
  | JStr s => negb (String.eqb s "")
  | JObj _ => true
  end.

(** An [id] is either given in the configuration or made by [Y.guid()]. *)
Inductive ident :=
| Named (s : string)
| Guid (n : nat).

Global Instance ident_eq_dec : EqDecision ident.
Proof. solve_decision. Defined.

(** The class-name constants.  Their string values are set outside the
    file; the code only ever passes them around. *)
Inductive cname :=
| CNAME_NODE
| CNAME_CHILDREN
| CNAME_COLLAPSED
| CNAME_EXPANDED
| CNAME_NOCHILDREN
| CNAME_FIRSTCHILD
| CNAME_LASTCHILD
| CNAME_LOADING.

Global Instance cname_eq_dec : EqDecision cname.
Proof. solve_decision. Defined.

(** ** The records of the configuration tree *)

Record record := Record {
  id : option ident;
  label : option string;
  template : option string;
  expanded : jsval;
  isLeaf : bool;
  children : option (list loc);
  _parent : option loc;
  _rendered : bool;
  _childrenRendered : bool;
  _held : option wid
}.

Global Instance record_eq_dec : EqDecision record.
Proof. solve_decision. Defined.

(** Field assignments [node.f = v]. *)
Definition set_id (v : option ident) (r : record) : record :=
  Record v (label r) (template r) (expanded r) (isLeaf r) (children r)
         (_parent r) (_rendered r) (_childrenRendered r) (_held r).
Definition set_expanded (v : jsval) (r : record) : record :=
  Record (id r) (label r) (template r) v (isLeaf r) (children r)
         (_parent r) (_rendered r) (_childrenRendered r) (_held r).
Definition set_isLeaf (v : bool) (r : record) : record :=
  Record (id r) (label r) (template r) (expanded r) v (children r)
         (_parent r) (_rendered r) (_childrenRendered r) (_held r).
Definition set_children (v : option (list loc)) (r : record) : record :=
  Record (id r) (label r) (template r) (expanded r) (isLeaf r) v
         (_parent r) (_rendered r) (_childrenRendered r) (_held r).
Definition set_parent (v : option loc) (r : record) : record :=
  Record (id r) (label r) (template r) (expanded r) (isLeaf r) (children r)
         v (_rendered r) (_childrenRendered r) (_held r).
Definition set_rendered (v : bool) (r : record) : record :=
  Record (id r) (label r) (template r) (expanded r) (isLeaf r) (children r)
         (_parent r) v (_childrenRendered r) (_held r).
Definition set_childrenRendered (v : bool) (r : record) : record :=
  Record (id r) (label r) (template r) (expanded r) (isLeaf r) (children r)
         (_parent r) (_rendered r) v (_held r).
Definition set_held (v : option wid) (r : record) : record :=
  Record (id r) (label r) (template r) (expanded r) (isLeaf r) (children r)
         (_parent r) (_rendered r) (_childrenRendered r) v.

(** ** What the node asks of the outside world *)

(** [Y.one(selector)]: the element of a node, or the element that holds
    its children. *)
Inductive selector :=
| ById (i : option ident)
| ChildrenOf (i : option ident).

Inductive event :=
| ReplaceClass (sel : selector) (old new : cname)
| SetContent (sel : selector) (markup : string)
| CallLoader (w : wid) (l : loc).

Global Instance selector_eq_dec : EqDecision selector.
Proof. solve_decision. Defined.
Global Instance event_eq_dec : EqDecision event.
Proof. solve_decision. Defined.

(** ** The state: records, node instances, the manager *)

Record state := State {
  nodes : gmap loc record;
  _node : gmap wid loc;
  pool : list wid;
  created : nat;
  dynamicLoader : bool;
  _tree : loc;
  guid : nat;
  trace : list event
}.

Definition set_nodes (v : gmap loc record) (st : state) : state :=
  State v (_node st) (pool st) (created st) (dynamicLoader st) (_tree st)
        (guid st) (trace st).
Definition set_node (v : gmap wid loc) (st : state) : state :=
  State (nodes st) v (pool st) (created st) (dynamicLoader st) (_tree st)
        (guid st) (trace st).
Definition set_pool (v : list wid) (st : state) : state :=
  State (nodes st) (_node st) v (created st) (dynamicLoader st) (_tree st)
        (guid st) (trace st).
Definition set_created (v : nat) (st : state) : state :=
  State (nodes st) (_node st) (pool st) v (dynamicLoader st) (_tree st)
        (guid st) (trace st).
Definition set_guid (v : nat) (st : state) : state :=
  State (nodes st) (_node st) (pool st) (created st) (dynamicLoader st)
        (_tree st) v (trace st).
Definition emit (e : event) (st : state) : state :=
  State (nodes st) (_node st) (pool st) (created st) (dynamicLoader st)
        (_tree st) (guid st) (trace st ++ [e]).

(** [node.f = v] on the record at [l]. *)
Definition update (l : loc) (f : record → record) (st : state) : state :=
  set_nodes (alter f l (nodes st)) st.

(** [this._node], then the record it refers to. *)
Definition bound_record (this : wid) (st : state) : option (loc * record) :=
  l ← _node st !! this; r ← nodes st !! l; Some (l, r).

(** [_slideTo]: [this._node = node; this._stateProxy = node] *)
Definition _slideTo (this : wid) (node : loc) (st : state) : state :=
  set_node (<[this := node]> (_node st)) st.

(** ** The manager's pool *)

(** Modelled from the spec: the manager's [_poolFetch] is missing from the
    sources.  A held record gives its pinned instance unchanged; otherwise
    an instance is popped from the free list, or made when the list is
    empty, and slid over the record. *)
Definition _poolFetch (l : loc) (st : state) : option (wid * state) :=
  r ← nodes st !! l;
  match _held r with
  | Some w => Some (w, st)
  | None =>
      match pool st with
      | w :: rest => Some (w, _slideTo w l (set_pool rest st))
      | [] =>
          let w := created st in
          Some (w, _slideTo w l (set_created (S w) st))
      end
  end.

(** Whether the record under the instance [w] is held. *)
Definition is_held (w : wid) (st : state) : bool :=
  match bound_record w st with
  | Some (_, r) => bool_decide (is_Some (_held r))
  | None => false
  end.

(** Modelled from the spec: the manager's [_poolReturn] is missing from the
    sources.  Nothing happens when the bound record is held; otherwise the
    instance is unbound and pushed on the free list. *)
Definition _poolReturn (w : wid) (st : state) : state :=
  if is_held w st then st
  else set_pool (w :: pool st) (set_node (delete w (_node st)) st).

(** ** Navigation *)

(** [hold]: [return (this._node._held = this)] *)
Definition hold (this : wid) (st : state) : option (wid * state) :=
  '(l, _) ← bound_record this st;
  Some (this, update l (set_held (Some this)) st).

(** [release] *)
Definition release (this : wid) (st : state) : option (wid * state) :=
  '(l, _) ← bound_record this st;
  Some (this, _poolReturn this (update l (set_held None) st)).

(** [getParent] *)
Definition getParent (this : wid) (st : state) : option (option wid * state) :=
  '(_, r) ← bound_record this st;
  match _parent r with
  | Some p => '(w, st') ← _poolFetch p st; Some (Some w, st')
  | None => Some (None, st)
  end.

(** [Array.prototype.indexOf]: the first position holding the very same
    value, or -1. *)
Fixpoint indexOf_from (i : Z) (x : obj) (arr : list obj) : Z :=
  match arr with
  | [] => -1
  | y :: rest => if decide (x = y) then i else indexOf_from (i + 1) x rest
  end.

(** [arr.indexOf(x)] *)
Definition indexOf (arr : list obj) (x : obj) : Z := indexOf_from 0 x arr.

(** [(parent && parent.children) || []] *)
Definition siblings_of (r : record) (st : state) : option (list loc) :=
  match _parent r with
  | None => Some []
  | Some p => parent ← nodes st !! p; Some (default [] (children parent))
  end.

(** [siblings[index]] for an index that is not negative; past the end it
    is [undefined], which [_poolFetch] cannot take. *)
Definition element_at (arr : list loc) (index : Z) : option loc :=
  arr !! Z.to_nat index.

(** [getNextSibling] *)
Definition getNextSibling (this : wid) (st : state) : option (option wid * state) :=
  '(_, r) ← bound_record this st;
  siblings ← siblings_of r st;
  let index := indexOf (ORecord <$> siblings) (OWrapper this) + 1 in
  if bool_decide (index = 0 ∨ index > Z.of_nat (length siblings)) then Some (None, st)
  else
    sib ← element_at siblings index;
    '(w, st') ← _poolFetch sib st;
    Some (Some w, st').

(** [getPreviousSibling] *)
Definition getPreviousSibling (this : wid) (st : state) : option (option wid * state) :=
  '(_, r) ← bound_record this st;
  siblings ← siblings_of r st;
  let index := indexOf (ORecord <$> siblings) (OWrapper this) - 1 in
  if bool_decide (index < 0) then Some (None, st)
  else
    sib ← element_at siblings index;
    '(w, st') ← _poolFetch sib st;
    Some (Some w, st').

(** [isRoot] *)
Definition isRoot (this : wid) (st : state) : option bool :=
  l ← _node st !! this; Some (bool_decide (_tree st = l)).

(** The [depth] attribute: its getter walks the [_parent] links.  A chain
    of links that has not ended when the fuel has is one the loop is still
    walking. *)
Fixpoint depth_loop (fuel : nat) (count : Z) (l : loc) (st : state) : option Z :=
  match fuel with
  | O => None
  | S fuel' =>
      r ← nodes st !! l;
      match _parent r with
      | Some p => depth_loop fuel' (count + 1) p st
      | None => Some count
      end
  end.

(** The getter: [count = 0; node = this._node; while (node._parent) ...;
    return count-1], with [count] raised once per link. *)
Definition depth (fuel : nat) (this : wid) (st : state) : option Z :=
  l ← _node st !! this;
  count ← depth_loop fuel 0 l st;
  Some (count - 1).

(** ** Iterating over the children *)

(** A callback handed to [forSomeChildren].  The local variables of the
    enclosing function that the callback assigns to (the markup string
    [s] of [_getHTML] and [_renderChildren]) are threaded as [A]. *)
Definition callback (A : Type) : Type :=
  wid → nat → list loc → A → state → option (jsval * A * state).

(** [Y.Array.some(array, f)]: runs [f] on each item, with its index and
    the array, until one call returns a truthy value. *)
Fixpoint some_from {A} (f : loc → nat → list loc → A → state → option (jsval * A * state))
    (array : list loc) (index : nat) (rest : list loc) (a : A) (st : state)
    : option (bool * A * state) :=
  match rest with
  | [] => Some (false, a, st)
  | node :: rest' =>
      '(ret, a', st') ← f node index array a st;
      if truthy ret then Some (true, a', st')
      else some_from f array (S index) rest' a' st'
  end.

(** The iteration from the first item. *)
Definition YArray_some {A} f (array : list loc) (a : A) (st : state) :=
  some_from f array 0 array a st.

(** The function that [forSomeChildren] hands to [Y.Array.some]. *)
Definition visit {A} (fn : callback A) : loc → nat → list loc → A → state → option (jsval * A * state) :=
  λ node index array a st,
    '(child, st1) ← _poolFetch node st;
    '(ret, a', st2) ← fn child index array a st1;
    Some (ret, a', _poolReturn child st2).

(** [forSomeChildren] *)
Definition forSomeChildren {A} (fn : callback A) (this : wid) (a : A) (st : state)
    : option (A * state) :=
  '(_, r) ← bound_record this st;
  match children r with
  | Some (c :: cs) =>
      '(_, a', st') ← YArray_some (visit fn) (c :: cs) a st;
      Some (a', st')
  | _ => Some (a, st)
  end.

(** ** Attributes *)

(** [_expandedGetter]: [this._node.expanded !== false] *)
Definition _expandedGetter (this : wid) (st : state) : option bool :=
  '(_, r) ← bound_record this st;
  Some (bool_decide (expanded r ≠ JBool false)).

(** The object that [getAttrs()] gives and [_getHTML] completes.  The
    three last fields are the ones [_getHTML] adds. *)
Record attrs := Attrs {
  attr_id : option ident;
  attr_label : string;
  attr_template : option string;
  attr_depth : Z;
  attr_expanded : bool;
  attr_children : string;
  attr_cname_node : list cname;
  attr_cname_children : option cname
}.

(** [getAttrs()]: the configuration attributes are read from the record
    ([_getStateVal]), [depth] and [expanded] through their getters. *)
Definition getAttrs (fuel : nat) (this : wid) (st : state) : option attrs :=
  '(_, r) ← bound_record this st;
  d ← depth fuel this st;
  e ← _expandedGetter this st;
  Some (Attrs (id r) (default "" (label r)) (template r) d e "" [] None).

Definition complete (s : string) (nodeClasses : list cname) (a : attrs) : attrs :=
  Attrs (attr_id a) (attr_label a) (attr_template a) (attr_depth a)
        (attr_expanded a) s nodeClasses (Some CNAME_CHILDREN).

(** The static [TEMPLATE] of FlyweightTreeNode. *)
Definition dq : string := String (ascii_of_nat 34) EmptyString.
Definition TEMPLATE : string :=
  "<div id=" +:+ dq +:+ "{id}" +:+ dq +:+ " class=" +:+ dq +:+ "{cname_node}" +:+ dq
  +:+ "><div class=" +:+ dq +:+ "content" +:+ dq +:+ ">{label}</div><div class="
  +:+ dq +:+ "{cname_children}" +:+ dq +:+ ">{children}</div></div>".

(** [templ = node.template; while (!templ) ...]: for FlyweightTreeNode
    itself the loop ends in its first turn, at [TEMPLATE]. *)
Definition resolve_template (r : record) : string :=
  match template r with
  | Some t => if truthy (JStr t) then t else TEMPLATE
  | None => TEMPLATE
  end.

(** [childCount = node.children && node.children.length], as a test. *)
Definition has_children (r : record) : bool :=
  match children r with
  | Some (_ :: _) => true
  | _ => false
  end.

(** [Y.Array.each] with a function that changes the state. *)
Fixpoint each (f : loc → state → option state) (array : list loc) (st : state)
    : option state :=
  match array with
  | [] => Some st
  | x :: rest => st' ← f x st; each f rest st'
  end.

(** Modelled from the spec: the manager's [_initNodes] is missing from the
    sources.  It walks the children hung under [parent]: each gets its
    [_parent] link, an identifier if it has none, and is marked a leaf
    when it has no children and no loader is configured; then its own
    children are walked. *)
Fixpoint _initNodes (fuel : nat) (parent : loc) (st : state) : option state :=
  match fuel with
  | O => None
  | S fuel' =>
      r ← nodes st !! parent;
      each (λ child st,
              rc ← nodes st !! child;
              let st1 := update child (set_parent (Some parent)) st in
              let st2 := match id rc with
                         | Some _ => st1
                         | None => set_guid (S (guid st1))
                                     (update child (set_id (Some (Guid (guid st1)))) st1)
                         end in
              let st3 := if negb (has_children rc) && negb (dynamicLoader st2)
                         then update child (set_isLeaf true) st2 else st2 in
              _initNodes fuel' child st3)
           (default [] (children r)) st
  end.

(** ** Rendering and the expanded attribute *)

(** The callback of [_getHTML] and [_renderChildren]:
    [function (fwNode, index, array) { s += fwNode._getHTML(index, array.length, depth+1); }],
    with the recursive call as [render].  It returns nothing. *)
Definition append_markup (render : wid → Z → Z → state → option (string * state))
    : callback string :=
  λ fwNode index array s st,
    '(h, st) ← render fwNode (Z.of_nat index) (Z.of_nat (length array)) st;
    Some (JUndefined, s +:+ h, st).

Section Rendering.

(** [Y.Lang.sub(template, attrs)], the template resolver. *)
Variable sub : string → attrs → string.

(** [_getHTML] *)
Fixpoint _getHTML (fuel : nat) (this : wid) (index nSiblings depth : Z) (st : state)
    : option (string * state) :=
  match fuel with
  | O => None
  | S fuel' =>
      '(l, node) ← bound_record this st;
      attrs ← getAttrs fuel' this st;
      let templ := resolve_template node in
      let childCount := has_children node in
      let nodeClasses := [CNAME_NODE] in
      let st := update l (set_rendered true) st in
      '(s, nodeClasses, st) ←
        (if childCount then
           if attr_expanded attrs then
             let st := update l (set_childrenRendered true) st in
             '(s, st) ← forSomeChildren
                          (append_markup (λ fwNode index nSiblings,
                             _getHTML fuel' fwNode index nSiblings (depth + 1)))
                          this "" st;
             Some (s, nodeClasses ++ [CNAME_EXPANDED], st)
           else Some ("", nodeClasses ++ [CNAME_COLLAPSED], st)
         else
           if dynamicLoader st && negb (isLeaf node)
           then Some ("", nodeClasses ++ [CNAME_COLLAPSED], st)
           else Some ("", nodeClasses ++ [CNAME_NOCHILDREN], st));
      let nodeClasses :=
        if bool_decide (index = 0) then nodeClasses ++ [CNAME_FIRSTCHILD] else nodeClasses in
      let nodeClasses :=
        if bool_decide (index = nSiblings - 1) then nodeClasses ++ [CNAME_LASTCHILD]
        else nodeClasses in
      Some (sub templ (complete s nodeClasses attrs), st)
  end.

(** [_renderChildren] *)
Definition _renderChildren (fuel : nat) (this : wid) (st : state) : option state :=
  '(l, _) ← bound_record this st;
  depth ← depth fuel this st;
  let st := update l (set_childrenRendered true) st in
  '(s, st) ← forSomeChildren
               (append_markup (λ fwNode index nSiblings,
                  _getHTML fuel fwNode index nSiblings (depth + 1)))
               this "" st;
  node ← nodes st !! l;
  Some (emit (SetContent (ChildrenOf (id node)) s) st).

(** [_loadDynamic]: the loader is handed the node and the bound
    [_dynamicLoadReturn]; it answers later, so here the call is only
    recorded. *)
Definition _loadDynamic (this : wid) (st : state) : option state :=
  '(l, node) ← bound_record this st;
  let st := emit (ReplaceClass (ById (id node)) CNAME_COLLAPSED CNAME_LOADING) st in
  Some (emit (CallLoader this l) st).

(** [_dynamicLoadReturn]: [response] is [None] for a falsy answer and
    [Some array] for an array of records, which is truthy also when it
    is empty. *)
Definition _dynamicLoadReturn (fuel : nat) (this : wid) (response : option (list loc))
    (st : state) : option state :=
  '(l, _) ← bound_record this st;
  st ← match response with
       | Some array =>
           let st := update l (set_children (Some array)) st in
           st ← _initNodes fuel l st;
           _renderChildren fuel this st
       | None => Some (update l (set_isLeaf true) st)
       end;
  node ← nodes st !! l;
  Some (emit (ReplaceClass (ById (id node)) CNAME_LOADING
                (if isLeaf node then CNAME_NOCHILDREN else CNAME_EXPANDED)) st).

(** [_expandedSetter] *)
Definition eligible (dynLoader : bool) (node : record) : bool :=
  dynLoader && negb (isLeaf node) && negb (has_children node).

Definition _expandedSetter (fuel : nat) (this : wid) (value : jsval) (st : state)
    : option state :=
  '(l, node) ← bound_record this st;
  let el := ById (id node) in
  let dynLoader := dynamicLoader st in
  let value := truthy value in
  let st := update l (set_expanded (JBool value)) st in
  if eligible dynLoader node then _loadDynamic this st
  else if has_children node then
    if value then
      st ← (if negb (_childrenRendered node) then _renderChildren fuel this st
            else Some st);
      Some (emit (ReplaceClass el CNAME_COLLAPSED CNAME_EXPANDED) st)
    else Some (emit (ReplaceClass el CNAME_EXPANDED CNAME_COLLAPSED) st)
  else Some st.

(** [toggle] *)
Definition toggle (fuel : nat) (this : wid) (st : state) : option (wid * state) :=
  e ← _expandedGetter this st;
  st ← _expandedSetter fuel this (JBool (negb e)) st;
  Some (this, st).

End Rendering.

(** ** A small tree to try things on *)

(** A childless record named [i] under the record [p]. *)
Definition leaf_record (i : string) (p : loc) : record :=
  Record (Some (Named i)) (Some i) None JUndefined false None (Some p)
         false false None.

(** A sentinel (0) above one top-level record (1) with the children
    x (2), y (3) and z (4). *)
Definition xyz_nodes : gmap loc record :=
  list_to_map
    [ (0%nat, Record None None None JUndefined false (Some [1%nat]) None false false None);
      (1%nat, Record (Some (Named "top")) (Some "top") None JUndefined false
                (Some [2%nat; 3%nat; 4%nat]) (Some 0%nat) false false None);
      (2%nat, leaf_record "x" 1%nat);
      (3%nat, leaf_record "y" 1%nat);
      (4%nat, leaf_record "z" 1%nat) ].

(** Instances 0, 1, 2, 3 and 4 are bound to x, y, z, the top-level
    record and the sentinel; the free list is empty. *)
Definition xyz_state (loader : bool) : state :=
  State xyz_nodes
        (list_to_map [(0%nat, 2%nat); (1%nat, 3%nat); (2%nat, 4%nat); (3%nat, 1%nat);
                      (4%nat, 0%nat)])
        [] 5 loader 0%nat 0 [].

(** A resolver to try things with: the label, then the children slot
    between brackets. *)
Definition plain_sub (templ : string) (a : attrs) : string :=
  attr_label a +:+ "[" +:+ attr_children a +:+ "]".

(** A callback that writes down each call (the index, and the record it
    finds under the instance it is given) and asks to stop at [stop]. *)
Definition note_call (stop : nat) : callback (list (nat * option loc)) :=
  λ child index _ seen st,
    Some (JBool (bool_decide (index = stop)), seen ++ [(index, _node st !! child)], st).

(** The chain sentinel (0), root (1), a (2), b (3), c (4). *)
Definition chain_record (p : option loc) (c : loc) : record :=
  Record None None None JUndefined false (Some [c]) p false false None.

(** One instance on each of root, a, b and c. *)
Definition chain_state : state :=
  State (list_to_map
           [ (0%nat, chain_record None 1%nat);
             (1%nat, chain_record (Some 0%nat) 2%nat);
             (2%nat, chain_record (Some 1%nat) 3%nat);
             (3%nat, chain_record (Some 2%nat) 4%nat);
             (4%nat, Record None None None JUndefined false None (Some 3%nat)
                       false false None) ])
        (list_to_map [(0%nat, 1%nat); (1%nat, 2%nat); (2%nat, 3%nat); (3%nat, 4%nat)])
        [] 4 false 0%nat 0 [].

(** * The vocabulary of the properties *)

(** The iteration as the specification words it: the children are taken
    in their stored order; for each, a pooled instance is fetched, [fn]
    is called with it, the instance goes back to the pool at once, and a
    truthy result ends the iteration. *)
Fixpoint visit_in_order {A} (fn : callback A) (siblings : list loc) (index : nat)
    (rest : list loc) (a : A) (st : state) : option (A * state) :=
  match rest with
  | [] => Some (a, st)
  | c :: rest' =>
      '(child, st1) ← _poolFetch c st;
      '(ret, a', st2) ← fn child index siblings a st1;
      let st3 := _poolReturn child st2 in
      if truthy ret then Some (a', st3)
      else visit_in_order fn siblings (S index) rest' a' st3
  end.

(** A record without its two render flags. *)
Definition erase_flags (r : record) : record :=
  set_rendered false (set_childrenRendered false r).

(** [r'] is [r] with, at most, render flags raised. *)
Definition rec_le (r r' : record) : Prop :=
  erase_flags r' = erase_flags r ∧
  (_rendered r = true → _rendered r' = true) ∧
  (_childrenRendered r = true → _childrenRendered r' = true).

(** [st'] is [st] up to the pool, the bindings of the instances and
    raised render flags. *)
Record frame (st st' : state) : Prop := Frame {
  frame_nodes : ∀ l, option_Forall2 rec_le (nodes st !! l) (nodes st' !! l);
  frame_loader : dynamicLoader st' = dynamicLoader st;
  frame_tree : _tree st' = _tree st;
  frame_guid : guid st' = guid st;
  frame_trace : trace st' = trace st
}.

(** Two states with the same records up to fields other than
    [children] and [_parent]. *)
Definition same_shape (st st' : state) : Prop :=
  ∀ l, option_Forall2 (λ r r', children r' = children r ∧ _parent r' = _parent r)
         (nodes st !! l) (nodes st' !! l).

(** The markups of the children, one after the other. *)
Definition join (hs : list string) : string := foldr String.append "" hs.

(** The children rendered as the specification words it: each child in
    stored order is rendered through a pooled instance, at its index,
    with the number of its siblings, and the instance goes back to the
    pool before the next child is taken; [hs] are their markups. *)
Inductive children_markup (render : wid → Z → Z → state → option (string * state))
    (siblings : list loc) : nat → list loc → state → list string → state → Prop :=
| cm_nil index st : children_markup render siblings index [] st [] st
| cm_cons index c rest st child st1 h st2 hs st3 :
    _poolFetch c st = Some (child, st1) →
    _node st1 !! child = Some c →
    render child (Z.of_nat index) (Z.of_nat (length siblings)) st1 = Some (h, st2) →
    children_markup render siblings (S index) rest (_poolReturn child st2) hs st3 →
    children_markup render siblings index (c :: rest) st (h :: hs) st3.

(** The record is expanded and has children: [_getHTML] goes into them. *)
Definition recurses (r : record) : bool :=
  has_children r && bool_decide (expanded r ≠ JBool false).

(** A held record is held by an instance that is bound to it, is not in
    the free list, and was made by the manager. *)
Definition held_ok (st : state) (l : loc) (r : record) : Prop :=
  match _held r with
  | Some h => _node st !! h = Some l ∧ (h ∉ pool st) ∧ (h < created st)%nat
  | None => True
  end.

Global Instance held_ok_dec st l r : Decision (held_ok st l r).
Proof. unfold held_ok. destruct (_held r); apply _. Defined.

(** Every held record of the tree is held that way. *)
Definition pool_ok (st : state) : Prop := map_Forall (held_ok st) (nodes st).

(** The tree under [l] can be rendered: it is no deeper than [n] records,
    every reference to a child leads to a record, and from each of its
    records the [_parent] links end within [D] steps. *)
Fixpoint renderable (D n : nat) (l : loc) (st : state) : bool :=
  match n with
  | O => false
  | S n' =>
      match nodes st !! l with
      | None => false
      | Some r =>
          bool_decide (is_Some (depth_loop D 0 l st))
          && forallb (λ c, renderable D n' c st) (default [] (children r))
      end
  end.

(** The [expanded] attribute is set, one time after the other, through
    the instances and to the values of [sets]. *)
Fixpoint set_each (sub : string → attrs → string) (fuel : nat)
    (sets : list (wid * jsval)) (st : state) : option state :=
  match sets with
  | [] => Some st
  | (w, v) :: rest => st' ← _expandedSetter sub fuel w v st; set_each sub fuel rest st'
  end.

(** Setting [expanded] to [v] only records [false] in the record and, at
    most, swaps the expanded class for the collapsed one: nothing else
    of the state changes, and nothing else is asked of the page or of the
    loader. *)
Definition collapse_only_reclassifies (sub : string → attrs → string) (fuel : nat)
    (this : wid) (v : jsval) (st : state) : Prop :=
  ∀ l r, bound_record this st = Some (l, r) →
    let st0 := update l (set_expanded (JBool false)) st in
    ∃ st', _expandedSetter sub fuel this v st = Some st' ∧
           (st' = st0 ∨
            st' = emit (ReplaceClass (ById (id r)) CNAME_EXPANDED CNAME_COLLAPSED) st0).

(** The loader's answer [response] makes the record under the instance a
    leaf for good: the flag is set, the class becomes the no-children
    one, and no set of [expanded] through instances bound to the record
    calls the loader for it afterwards. *)
Definition leaf_fallback (sub : string → attrs → string) (fuel : nat)
    (this : wid) (response : option (list loc)) (st : state) : Prop :=
  ∀ l r, bound_record this st = Some (l, r) →
    eligible (dynamicLoader st) r = true →
    ∃ st1,
      _dynamicLoadReturn sub fuel this response st = Some st1 ∧
      (isLeaf <$> nodes st1 !! l) = Some true ∧
      last (trace st1) = Some (ReplaceClass (ById (id r)) CNAME_LOADING CNAME_NOCHILDREN) ∧
      ∀ sets, Forall (λ wv, _node st1 !! wv.1 = Some l) sets →
        ∃ st2, set_each sub fuel sets st1 = Some st2 ∧
               ∀ w, CallLoader w l ∉ drop (length (trace st1)) (trace st2).

(** * More vocabulary: the discipline of the pool *)

(** The free list holds each instance once, and holds it unbound; every
    instance, free or bound, is one that the manager made. *)
Definition pool_wf (st : state) : Prop :=
  NoDup (pool st) ∧
  Forall (λ w, _node st !! w = None ∧ (w < created st)%nat) (pool st) ∧
  map_Forall (λ w _, (w < created st)%nat) (_node st).

(** From [st] to [st'] the instances are bound as they were, and the free
    list is what it was plus the instances made in between. *)
Definition balanced (st st' : state) : Prop :=
  _node st' = _node st ∧
  (created st ≤ created st')%nat ∧
  pool st' ≡ₚ seq (created st) (created st' - created st) ++ pool st.

(** * More vocabulary: what is seen of a node *)

(** The children [cs] with their indices from [i] on, as a callback that
    is handed instances bound to them finds them. *)
Definition numbered (i : nat) (cs : list loc) : list (nat * option loc) :=
  imap (λ k c, ((i + k)%nat, Some c)) cs.

(** The class that shows the state of a node: expanded or collapsed for
    a node with children; for a node without, collapsed if children may
    still be loaded, and no-children otherwise. *)
Definition state_class (loader : bool) (r : record) : cname :=
  if has_children r then
    if bool_decide (expanded r ≠ JBool false) then CNAME_EXPANDED else CNAME_COLLAPSED
  else if loader && negb (isLeaf r) then CNAME_COLLAPSED else CNAME_NOCHILDREN.

(** The class swaps among the requests made of the page. *)
Definition swapped_from (e : event) : option (selector * cname) :=
  match e with
  | ReplaceClass sel old _ => Some (sel, old)
  | _ => None
  end.

(** As [xyz_state], with a second instance (7) on y. *)
Definition two_on_y : state :=
  State xyz_nodes
        (list_to_map [(0%nat, 2%nat); (1%nat, 3%nat); (2%nat, 4%nat); (3%nat, 1%nat);
                      (4%nat, 0%nat); (7%nat, 3%nat)])
        [] 8 false 0%nat 0 [].

(** The records of [st'] are those of [st], render flags apart, and the
    loader is configured in both or in neither. *)
Definition same_records (st st' : state) : Prop :=
  (∀ l, option_Forall2 (λ r r', erase_flags r' = erase_flags r)
          (nodes st !! l) (nodes st' !! l)) ∧
  dynamicLoader st' = dynamicLoader st.

(** A record without what [_initNodes] writes. *)
Definition erase_links (r : record) : record :=
  set_parent None (set_id None (set_isLeaf false r)).

(** [r'] is [r] after [_initNodes] may have passed: [_parent] apart, the
    identifier is kept if there was one, and [isLeaf] is kept when a
    loader is configured. *)
Definition init_le (loader : bool) (r r' : record) : Prop :=
  erase_links r' = erase_links r ∧
  (loader = true → isLeaf r' = isLeaf r) ∧
  (is_Some (id r) → id r' = id r).

(** [st'] is [st] up to what [_initNodes] writes in the records and the
    identifiers it draws. *)
Record init_frame (st st' : state) : Prop := InitFrame {
  init_nodes : ∀ l, option_Forall2 (init_le (dynamicLoader st))
                      (nodes st !! l) (nodes st' !! l);
  init_node : _node st' = _node st;
  init_pool : pool st' = pool st;
  init_created : created st' = created st;
  init_loader : dynamicLoader st' = dynamicLoader st;
  init_trace : trace st' = trace st
}.

(** The records on the way up from [l], [l] first. *)
Fixpoint chain (fuel : nat) (l : loc) (st : state) : list loc :=
  match fuel with
  | O => []
  | S fuel' =>
      l :: match nodes st !! l with
           | Some r => match _parent r with
                       | Some p => chain fuel' p st
                       | None => []
                       end
           | None => []
           end
  end.

(** The tree of [xyz_state] with a loader configured, and two records
    (5 and 6) that a loader has made and nothing refers to yet. *)
Definition answer_state : state :=
  State (list_to_map
           [ (0%nat, Record None None None JUndefined false (Some [1%nat]) None false false None);
             (1%nat, Record (Some (Named "top")) (Some "top") None JUndefined false
                       (Some [2%nat; 3%nat; 4%nat]) (Some 0%nat) false false None);
             (2%nat, leaf_record "x" 1%nat);
             (3%nat, leaf_record "y" 1%nat);
             (4%nat, leaf_record "z" 1%nat);
             (5%nat, Record None (Some "p") None JUndefined false None None false false None);
             (6%nat, Record None (Some "q") None JUndefined false None None false false None) ])
        (list_to_map [(0%nat, 2%nat); (1%nat, 3%nat); (2%nat, 4%nat); (3%nat, 1%nat);
                      (4%nat, 0%nat)])
        [] 5 true 0%nat 0 [].

(** * The Twitter client over YQL *)

Module YTwitter.

(** An object used as a map: its own properties with their values, in
    the order in which [for (key in o)] and [Y.each] go through them,
    which is the order in which they were first set (the names here are
    parameter names, none of them an array index). *)
Abbreviation object := (list (string * jsval)) (only parsing).

(** [o[k]]; [None] when [o] has no property [k]. *)
Fixpoint get (o : object) (k : string) : option jsval :=
  match o with
  | [] => None
  | (k', v) :: rest => if bool_decide (k' = k) then Some v else get rest k
  end.

(** [o[k] = v]: in place if [o] has the property, at the end otherwise. *)
Fixpoint assign (k : string) (v : jsval) (o : object) : object :=
  match o with
  | [] => [(k, v)]
  | (k', v') :: rest =>
      if bool_decide (k' = k) then (k, v) :: rest else (k', v') :: assign k v rest
  end.

(** [delete o[k]] *)
Definition remove (k : string) (o : object) : object :=
  filter (λ kv, kv.1 ≠ k) o.

(** [o[k]] as a condition. *)
Definition has (o : object) (k : string) : bool :=
  truthy (default JUndefined (get o k)).

(** The request handed to [Y.YQL]: the statement, the parameters bound to
    its [@name] placeholders, and the [proto] option. *)
Record request := Request {
  statement : string;
  params : list (string * jsval);
  proto : string
}.

(** What a value gives for [tweets] in [normalize]: nothing, an array, or
    anything else. *)
Inductive results (T : Type) :=
| Missing
| Many (items : list T)
| One (item : T).
Arguments Missing {T}.
Arguments Many {T} items.
Arguments One {T} item.

(** [normalize] *)
Definition normalize {T} (tweets : results T) : list T :=
  match tweets with
  | Missing => []
  | Many items => items
  | One item => [item]
  end.

(** The constructor: [this.oauth] for a [config], which may be missing. *)
Definition Twitter (config : option object) : object :=
  let config := default [] config in
  let oauth := [] in
  let oauth :=
    if has config "oauth_token" && has config "oauth_token_secret"
    then assign "oauth_token_secret" (default JUndefined (get config "oauth_token_secret"))
           (assign "oauth_token" (default JUndefined (get config "oauth_token")) oauth)
    else oauth in
  let oauth :=
    if has config "oauth_consumer_key" && has config "oauth_consumer_secret"
    then assign "oauth_consumer_secret"
           (default JUndefined (get config "oauth_consumer_secret"))
           (assign "oauth_consumer_key"
              (default JUndefined (get config "oauth_consumer_key")) oauth)
    else oauth in
  oauth.

Section Client.

(** The conversion of a value to a string, as [+] does it for a string
    and a value. *)
Variable str : jsval → string.

(** The clause that [whereString] makes of one property. *)
Definition clause (key : string) (value : jsval) : string :=
  if bool_decide (key = "q") then key +:+ "='" +:+ str value +:+ "'"
  else key +:+ "=@" +:+ key.

(** [whereString]; [Y.each] goes through no property of a missing
    object. *)
Definition whereString (params : option object) : string :=
  let wheres := (λ kv, clause kv.1 kv.2) <$> default [] params in
  if bool_decide (0 < length wheres)%nat
  then " WHERE " +:+ String.concat " AND " wheres
  else "".

(** [_oauth_to_where] *)
Definition _oauth_to_where (oauth : object) : string :=
  String.concat " AND " ((λ kv, kv.1 +:+ "='" +:+ str kv.2 +:+ "'") <$> oauth).

(** The [SET] statement of one credential. *)
Definition set_statement (key : string) (value : jsval) : string :=
  "SET " +:+ key +:+ "='" +:+ str value +:+ "' ON twitter; ".

(** [_execYql]: the request it makes.  An empty [query] is falsy and
    becomes [false]. *)
Definition _execYql (oauth : object) (query : string) (params : option object)
    (authenticated : bool) : request :=
  let query := if truthy (JStr query) then query else "false" in
  let params := default [] params in
  let options := if authenticated then "https" else "http" in
  let set := if authenticated then (λ kv, set_statement kv.1 kv.2) <$> oauth else [] in
  let set := String.concat "" set in
  Request (set +:+ query) params options.

(** [search]: the request, and the [where] object as the call leaves it
    (the caller's own object when one was passed). *)
Definition search (oauth : object) (searchQuery : jsval) (where_ : option object)
    : request * object :=
  let where_ := default [] where_ in
  let where_ :=
    if has where_ "count"
    then remove "count" (assign "rpp" (default JUndefined (get where_ "count")) where_)
    else where_ in
  let where_ := assign "q" searchQuery where_ in
  (_execYql oauth ("SELECT * FROM twitter.search" +:+ whereString (Some where_))
     (Some where_) false,
   where_).

(** [friends_timeline] *)
Definition friends_timeline (oauth : object) (where_ : option object) : request :=
  _execYql oauth ("SELECT * FROM twitter.status.timeline.friends" +:+ whereString where_)
    where_ true.

(** [user_timeline] *)
Definition user_timeline (oauth : object) (user : jsval) (where_ : option object)
    : request * object :=
  let where_ := default [] where_ in
  let where_ := assign "id" user where_ in
  let where_ :=
    assign "since_id"
      (if has where_ "since_id" then default JUndefined (get where_ "since_id") else JNum 1)
      where_ in
  (_execYql oauth ("SELECT * FROM twitter.status.timeline.user" +:+ whereString (Some where_))
     (Some where_) true,
   where_).

(** [user_mentions]: [whereString(where); return false;] comes before the
    request, which is never made. *)
Definition user_mentions (oauth : object) (where_ : option object) : option request :=
  let where_ := default [] where_ in
  let _ := whereString (Some where_) in
  None.

(** [user_favorites] *)
Definition user_favorites (oauth : object) (username : jsval) (where_ : option object)
    : request * object :=
  let where_ := default [] where_ in
  let where_ := assign "id" username where_ in
  (_execYql oauth ("SELECT * FROM twitter.favorites" +:+ whereString (Some where_))
     (Some where_) true,
   where_).

(** [ratelimit]: the parameters bound are [{}], whatever [where] is. *)
Definition ratelimit (oauth : object) (where_ : option object) : request :=
  _execYql oauth ("SELECT * FROM twitter.account.ratelimit" +:+ whereString where_)
    (Some []) true.

(** [update_status] *)
Definition update_status (oauth : object) (status : jsval) : request :=
  let altDatatable :=
    "USE " +:+ dq
    +:+ "https://github.com/derek/yui-twitter/raw/master/datatables/twitter.status.xml"
    +:+ dq +:+ " as post_twitter_status;" in
  _execYql oauth
    (altDatatable +:+ "UPDATE post_twitter_status SET status=@status WHERE "
     +:+ _oauth_to_where oauth)
    (Some [("status", status)]) false.

End Client.

(** A conversion to try things with: strings as they are, anything else
    as a question mark. *)
Definition plain_str (v : jsval) : string :=
  match v with
  | JStr s => s
  | _ => "?"
  end.

End YTwitter.

(** * Properties *)

(** ** Navigation *)

Lemma bound_record_Some this st l r :
  bound_record this st = Some (l, r) ↔ _node st !! this = Some l ∧ nodes st !! l = Some r.
Proof.
  unfold bound_record. split.
  - intros H. destruct (_node st !! this) as [l0|] eqn:E; simpl in H; [|done].
    destruct (nodes st !! l0) as [r0|] eqn:E'; simpl in H; [|done].
    by simplify_eq.
  - intros [-> H]. simpl. by rewrite H.
Qed.

(** No record is the instance: the search of [indexOf] fails. *)
Lemma indexOf_from_wrapper i w (siblings : list loc) :
  indexOf_from i (OWrapper w) (ORecord <$> siblings) = -1.
Proof.
  revert i. induction siblings as [|c rest IH]; intros i; simpl; [done|].
  destruct (decide (OWrapper w = ORecord c)) as [E|_]; [discriminate E | apply IH].
Qed.

Lemma getNextSibling_none this st l r siblings :
  bound_record this st = Some (l, r) →
  siblings_of r st = Some siblings →
  getNextSibling this st = Some (None, st).
Proof.
  intros Hb Hs. unfold getNextSibling. rewrite Hb. simpl. rewrite Hs. simpl.
  unfold indexOf. rewrite indexOf_from_wrapper.
  rewrite bool_decide_true; [done | by left].
Qed.

Lemma getPreviousSibling_none this st l r siblings :
  bound_record this st = Some (l, r) →
  siblings_of r st = Some siblings →
  getPreviousSibling this st = Some (None, st).
Proof.
  intros Hb Hs. unfold getPreviousSibling. rewrite Hb. simpl. rewrite Hs. simpl.
  unfold indexOf. rewrite indexOf_from_wrapper.
  rewrite bool_decide_true; [done | lia].
Qed.

(** C1 (the code departs from the claim): in the tree whose top-level
    record has the children [x; y; z], with one instance bound to each,
    [getPreviousSibling] on x and [getNextSibling] on z give null as
    claimed, but [getNextSibling] on y gives null too, not an instance
    bound to z: the instance itself is looked for among the records. *)
Theorem C1_next_sibling_of_y_is_null :
  let st := xyz_state false in
  (children <$> nodes st !! 1%nat) = Some (Some [2%nat; 3%nat; 4%nat]) ∧
  _node st !! 0%nat = Some 2%nat ∧ _node st !! 1%nat = Some 3%nat ∧
  _node st !! 2%nat = Some 4%nat ∧
  getPreviousSibling 0%nat st = Some (None, st) ∧
  getNextSibling 2%nat st = Some (None, st) ∧
  getNextSibling 1%nat st = Some (None, st).
Proof. vm_compute. repeat split; reflexivity. Qed.

(** C8: the absence conditions give null or do nothing, and never fail.
    [getParent] without a parent is null; the sibling lookups are null
    without a parent, and with a parent whose children are absent, empty
    or only the record itself; [forSomeChildren] with absent or empty
    children returns at once and leaves everything untouched, whatever
    [fn] is, even an [fn] that would fail when called. *)
Theorem C8_absence_is_not_an_error this st l r :
  bound_record this st = Some (l, r) →
  (_parent r = None → getParent this st = Some (None, st)) ∧
  ((_parent r = None ∨
    ∃ p rp, _parent r = Some p ∧ nodes st !! p = Some rp ∧
            ∀ c, c ∈ default [] (children rp) → c = l) →
   getNextSibling this st = Some (None, st) ∧
   getPreviousSibling this st = Some (None, st)) ∧
  (children r = None ∨ children r = Some [] →
   ∀ A (fn : callback A) (a : A), forSomeChildren fn this a st = Some (a, st)).
Proof.
  intros Hb. split; [|split].
  - intros Hp. unfold getParent. rewrite Hb. simpl. by rewrite Hp.
  - intros Hs.
    assert (∃ siblings, siblings_of r st = Some siblings) as [siblings Hsib].
    { unfold siblings_of. destruct Hs as [-> | (p & rp & -> & Hp & _)]; [eauto|].
      rewrite Hp. simpl. eauto. }
    split; [eapply getNextSibling_none | eapply getPreviousSibling_none]; eauto.
  - intros Hc A fn a. unfold forSomeChildren. rewrite Hb. simpl.
    by destruct Hc as [-> | ->].
Qed.

Lemma C8_absence_is_not_an_error_witness :
  let st := xyz_state false in
  getParent 4%nat st = Some (None, st) ∧
  getNextSibling 4%nat st = Some (None, st) ∧
  getPreviousSibling 4%nat st = Some (None, st) ∧
  ∀ A (fn : callback A) (a : A), forSomeChildren fn 0%nat a st = Some (a, st).
Proof.
  destruct (C8_absence_is_not_an_error 4%nat (xyz_state false) 0%nat
              (Record None None None JUndefined false (Some [1%nat]) None false false None)
              eq_refl) as (Hp & Hs & _).
  destruct (C8_absence_is_not_an_error 0%nat (xyz_state false) 2%nat
              (leaf_record "x" 1%nat) eq_refl) as (_ & _ & Hc).
  split; [apply Hp; reflexivity|].
  split; [apply Hs; left; reflexivity|].
  split; [apply Hs; left; reflexivity|].
  apply Hc. left. reflexivity.
Defined.

(** ** Holding and releasing *)

Lemma lookup_update l f st :
  nodes (update l f st) !! l = f <$> nodes st !! l.
Proof. unfold update. simpl. apply lookup_alter_eq. Qed.

Lemma lookup_update_ne l l' f st :
  l ≠ l' → nodes (update l f st) !! l' = nodes st !! l'.
Proof. intros. unfold update. simpl. by apply lookup_alter_ne. Qed.

(** C10: [hold] on an instance bound to a record writes that very
    instance in the record's [_held] and changes nothing else; [release]
    on an instance, in whatever state it is bound to a record, writes
    null in that record's [_held] and hands the instance to
    [_poolReturn], which (as the spec has it) then unbinds it and pushes
    it on the free list. *)
Theorem C10_hold_then_release w st l r :
  bound_record w st = Some (l, r) →
  hold w st = Some (w, update l (set_held (Some w)) st) ∧
  nodes (update l (set_held (Some w)) st) !! l = Some (set_held (Some w) r) ∧
  _held (set_held (Some w) r) = Some w ∧
  ∀ st1 l1 r1, bound_record w st1 = Some (l1, r1) →
    ∃ st2, release w st1 = Some (w, st2) ∧
           st2 = _poolReturn w (update l1 (set_held None) st1) ∧
           (_held <$> nodes st2 !! l1) = Some None ∧
           pool st2 = w :: pool st1 ∧
           _node st2 !! w = None.
Proof.
  intros Hb. split; [|split; [|split]].
  - unfold hold. by rewrite Hb.
  - apply bound_record_Some in Hb as [_ Hr]. by rewrite lookup_update, Hr.
  - done.
  - intros st1 l1 r1 Hb1. eexists. split; [|split; [reflexivity|]].
    + unfold release. by rewrite Hb1.
    + apply bound_record_Some in Hb1 as [Hw Hr].
      assert (is_held w (update l1 (set_held None) st1) = false) as Hh.
      { unfold is_held, bound_record. simpl. rewrite Hw. simpl.
        rewrite lookup_alter_eq, Hr. done. }
      unfold _poolReturn. rewrite Hh. simpl.
      rewrite lookup_alter_eq, Hr, lookup_delete_eq. done.
Qed.

Lemma C10_hold_then_release_witness :
  let st := xyz_state false in
  hold 1%nat st = Some (1%nat, update 3%nat (set_held (Some 1%nat)) st) ∧
  ∃ st2, release 1%nat (update 3%nat (set_held (Some 1%nat)) st) = Some (1%nat, st2) ∧
         (_held <$> nodes st2 !! 3%nat) = Some None ∧ pool st2 = [1%nat].
Proof.
  destruct (C10_hold_then_release 1%nat (xyz_state false) 3%nat
              (leaf_record "y" 1%nat) eq_refl) as (Hh & _ & _ & Hr).
  split; [exact Hh|].
  destruct (Hr (update 3%nat (set_held (Some 1%nat)) (xyz_state false)) 3%nat
               (set_held (Some 1%nat) (leaf_record "y" 1%nat)) eq_refl)
    as (st2 & H1 & _ & H2 & H3 & _).
  exists st2. split; [exact H1|]. split; [exact H2 | exact H3].
Defined.

(** ** Depth *)

(** C7: with a sentinel above [root] (a record without [_parent]) and the
    chain root, a, b, c hanging from it by [_parent] links, the [depth]
    getter gives 0, 1, 2 and 3 on instances bound to them, as soon as the
    loop is given the five turns it needs. *)
Theorem C7_depth_of_chain st sentinel root a b c rs rroot ra rb rc w0 w1 w2 w3 fuel :
  nodes st !! sentinel = Some rs → _parent rs = None →
  nodes st !! root = Some rroot → _parent rroot = Some sentinel →
  nodes st !! a = Some ra → _parent ra = Some root →
  nodes st !! b = Some rb → _parent rb = Some a →
  nodes st !! c = Some rc → _parent rc = Some b →
  _node st !! w0 = Some root → _node st !! w1 = Some a →
  _node st !! w2 = Some b → _node st !! w3 = Some c →
  (5 ≤ fuel)%nat →
  depth fuel w0 st = Some 0 ∧ depth fuel w1 st = Some 1 ∧
  depth fuel w2 st = Some 2 ∧ depth fuel w3 st = Some 3.
Proof.
  intros Hs Hsp Hr Hrp Ha Hap Hb Hbp Hc Hcp H0 H1 H2 H3 Hfuel.
  do 5 (destruct fuel as [|fuel]; [lia|]).
  unfold depth. rewrite H0, H1, H2, H3. simpl.
  rewrite Hr, Ha, Hb, Hc. simpl. rewrite Hrp, Hap, Hbp, Hcp.
  rewrite Hs, Hr, Ha, Hb. simpl. rewrite Hsp, Hrp, Hap, Hbp. simpl.
  rewrite Hs, Hr, Ha. simpl. rewrite Hsp, Hrp, Hap. simpl.
  rewrite Hs, Hr. simpl. rewrite Hsp, Hrp. simpl.
  rewrite Hs. simpl. rewrite Hsp. done.
Qed.

Lemma C7_depth_of_chain_witness :
  depth 5 0%nat chain_state = Some 0 ∧ depth 5 1%nat chain_state = Some 1 ∧
  depth 5 2%nat chain_state = Some 2 ∧ depth 5 3%nat chain_state = Some 3.
Proof.
  apply (C7_depth_of_chain chain_state 0%nat 1%nat 2%nat 3%nat 4%nat
           (chain_record None 1%nat) (chain_record (Some 0%nat) 2%nat)
           (chain_record (Some 1%nat) 3%nat) (chain_record (Some 2%nat) 4%nat)
           (Record None None None JUndefined false None (Some 3%nat) false false None));
    solve [reflexivity | lia].
Defined.

(** ** Iterating over the children *)

Lemma some_from_visit {A} (fn : callback A) siblings rest index a st :
  ('(_, a', st') ← some_from (visit fn) siblings index rest a st; Some (a', st'))
  = visit_in_order fn siblings index rest a st.
Proof.
  revert index a st. induction rest as [|c rest IH]; intros index a st; [done|].
  cbn [some_from visit_in_order].
  change (visit fn c index siblings a st)
    with ('(child, st1) ← _poolFetch c st;
          '(ret, a', st2) ← fn child index siblings a st1;
          Some (ret, a', _poolReturn child st2)).
  destruct (_poolFetch c st) as [[child st1]|]; [|done].
  cbn [mbind option_bind].
  destruct (fn child index siblings a st1) as [[[ret a'] st2]|]; [|done].
  cbn [mbind option_bind].
  destruct (truthy ret); [done | apply IH].
Qed.

Lemma forSomeChildren_visit {A} (fn : callback A) this a st l r :
  bound_record this st = Some (l, r) →
  forSomeChildren fn this a st
  = visit_in_order fn (default [] (children r)) 0 (default [] (children r)) a st.
Proof.
  intros Hb. unfold forSomeChildren. rewrite Hb. simpl.
  destruct (children r) as [[|c cs]|]; simpl; [done| |done].
  apply (some_from_visit fn (c :: cs) (c :: cs) 0%nat a st).
Qed.

(** C4: on an instance bound to a record, [forSomeChildren] is the
    iteration that the specification words: children in stored order, one
    fetch before and one return right after each call of [fn], and no
    further call once a result is truthy. *)
Theorem C4_forSomeChildren_in_order {A} (fn : callback A) this a st l r :
  bound_record this st = Some (l, r) →
  forSomeChildren fn this a st
  = visit_in_order fn (default [] (children r)) 0 (default [] (children r)) a st.
Proof.
  intros Hb. unfold forSomeChildren. rewrite Hb. cbn [mbind option_bind].
  destruct (children r) as [[|c cs]|]; [done| |done].
  change (default [] (Some (c :: cs))) with (c :: cs). unfold YArray_some.
  rewrite <- (some_from_visit fn (c :: cs) (c :: cs) 0%nat a st).
  by destruct (some_from (visit fn) (c :: cs) 0 (c :: cs) a st) as [[[b a'] st']|].
Qed.

Lemma C4_forSomeChildren_in_order_witness :
  forSomeChildren (note_call 1) 3%nat [] (xyz_state false)
  = visit_in_order (note_call 1) [2%nat; 3%nat; 4%nat] 0 [2%nat; 3%nat; 4%nat] []
      (xyz_state false)
  ∧ fst <$> forSomeChildren (note_call 1) 3%nat [] (xyz_state false)
    = Some [(0%nat, Some 2%nat); (1%nat, Some 3%nat)]
  ∧ fst <$> forSomeChildren (note_call 7) 3%nat [] (xyz_state false)
    = Some [(0%nat, Some 2%nat); (1%nat, Some 3%nat); (2%nat, Some 4%nat)].
Proof.
  split.
  - exact (C4_forSomeChildren_in_order (note_call 1) 3%nat [] (xyz_state false) 1%nat
             (Record (Some (Named "top")) (Some "top") None JUndefined false
                (Some [2%nat; 3%nat; 4%nat]) (Some 0%nat) false false None) eq_refl).
  - split; vm_compute; reflexivity.
Defined.

(** ** What rendering leaves alone *)

Lemma rec_le_refl r : rec_le r r.
Proof. by split. Qed.

Lemma rec_le_trans r1 r2 r3 : rec_le r1 r2 → rec_le r2 r3 → rec_le r1 r3.
Proof.
  intros (E1 & A1 & B1) (E2 & A2 & B2). split; [congruence|]. split; auto.
Qed.

Lemma frame_refl st : frame st st.
Proof.
  split; try done. intros l. destruct (nodes st !! l); constructor. apply rec_le_refl.
Qed.

Lemma frame_trans st1 st2 st3 : frame st1 st2 → frame st2 st3 → frame st1 st3.
Proof.
  intros [N1 L1 T1 G1 R1] [N2 L2 T2 G2 R2]. split; try congruence.
  intros l. specialize (N1 l). specialize (N2 l).
  destruct N1 as [r1 r2 H12|]; inversion N2; subst; constructor.
  eapply rec_le_trans; eauto.
Qed.

Lemma frame_update l f st :
  (∀ r, rec_le r (f r)) → frame st (update l f st).
Proof.
  intros Hf. split; try done. intros l'.
  destruct (decide (l = l')) as [<-|Hne].
  - rewrite lookup_update. destruct (nodes st !! l); constructor. apply Hf.
  - rewrite lookup_update_ne by done. destruct (nodes st !! l'); constructor.
    apply rec_le_refl.
Qed.

Lemma rec_le_set_rendered r : rec_le r (set_rendered true r).
Proof. split; [done|]. split; [done|]. by destruct r. Qed.

Lemma rec_le_set_childrenRendered r : rec_le r (set_childrenRendered true r).
Proof. split; [done|]. split; [|done]. by destruct r. Qed.

Lemma frame_same_nodes st st' :
  nodes st' = nodes st → dynamicLoader st' = dynamicLoader st →
  _tree st' = _tree st → guid st' = guid st → trace st' = trace st →
  frame st st'.
Proof.
  intros E ? ? ? ?. split; try done. intros l. rewrite E.
  destruct (nodes st !! l); constructor. apply rec_le_refl.
Qed.

Lemma frame_poolFetch l st w st' :
  _poolFetch l st = Some (w, st') → frame st st'.
Proof.
  unfold _poolFetch. intros H.
  destruct (nodes st !! l) as [r|]; simpl in H; [|done].
  destruct (_held r).
  - simplify_eq. apply frame_refl.
  - destruct (pool st); simplify_eq; by apply frame_same_nodes.
Qed.

Lemma frame_poolReturn w st : frame st (_poolReturn w st).
Proof.
  unfold _poolReturn. destruct (is_held w st); [apply frame_refl|].
  by apply frame_same_nodes.
Qed.

(** A property of the state that every turn of the iteration keeps is
    kept by the iteration. *)
Lemma some_from_inv {A} (P : state → Prop)
    (f : loc → nat → list loc → A → state → option (jsval * A * state)) array :
  (∀ node index a st ret a' st',
      P st → f node index array a st = Some (ret, a', st') → P st') →
  ∀ rest index a st b a' st',
    P st → some_from f array index rest a st = Some (b, a', st') → P st'.
Proof.
  intros Hf. induction rest as [|c rest IH]; intros index a st b a' st' HP H.
  - simpl in H. by simplify_eq.
  - cbn [some_from] in H.
    destruct (f c index array a st) as [[[ret a1] st1]|] eqn:E; [|done].
    cbn [mbind option_bind] in H.
    pose proof (Hf _ _ _ _ _ _ _ HP E) as HP1.
    destruct (truthy ret); [by simplify_eq | eauto].
Qed.

Lemma forSomeChildren_inv {A} (P : state → Prop) (fn : callback A) this a st a' st' :
  (∀ l st w st', P st → _poolFetch l st = Some (w, st') → P st') →
  (∀ w st, P st → P (_poolReturn w st)) →
  (∀ child index array a st ret a' st',
      P st → fn child index array a st = Some (ret, a', st') → P st') →
  P st → forSomeChildren fn this a st = Some (a', st') → P st'.
Proof.
  intros Hfetch Hret Hfn HP H. unfold forSomeChildren in H.
  destruct (bound_record this st) as [[l r]|]; [|done]. cbn [mbind option_bind] in H.
  destruct (children r) as [[|c cs]|]; try by simplify_eq.
  unfold YArray_some in H.
  destruct (some_from (visit fn) (c :: cs) 0 (c :: cs) a st) as [[[b a1] st1]|] eqn:E;
    [|done].
  cbn [mbind option_bind] in H. simplify_eq.
  eapply (some_from_inv P); [|exact HP|exact E].
  intros node index a0 st0 ret a2 st2 HP0 Hv. unfold visit in Hv.
  destruct (_poolFetch node st0) as [[child st3]|] eqn:Ef; [|done].
  cbn [mbind option_bind] in Hv.
  destruct (fn child index (c :: cs) a0 st3) as [[[ret' a3] st4]|] eqn:Efn; [|done].
  cbn [mbind option_bind] in Hv. simplify_eq. eauto.
Qed.

Lemma append_markup_Some render fwNode index array s st ret s' st' :
  append_markup render fwNode index array s st = Some (ret, s', st') ↔
  ∃ h, render fwNode (Z.of_nat index) (Z.of_nat (length array)) st = Some (h, st') ∧
       ret = JUndefined ∧ s' = s +:+ h.
Proof.
  unfold append_markup. split.
  - intros H.
    destruct (render fwNode (Z.of_nat index) (Z.of_nat (length array)) st)
      as [[h st1]|]; [|done].
    cbn [mbind option_bind] in H. simplify_eq. eauto.
  - intros (h & -> & -> & ->). done.
Qed.

Section RenderingFacts.

Variable sub : string → attrs → string.

Lemma _getHTML_frame fuel :
  ∀ this index nSiblings depth st html st',
    _getHTML sub fuel this index nSiblings depth st = Some (html, st') → frame st st'.
Proof.
  induction fuel as [|fuel IH]; intros this index nSiblings depth st html st' H; [done|].
  cbn [_getHTML] in H.
  destruct (bound_record this st) as [[l node]|] eqn:Hb; [|done].
  cbn [mbind option_bind] in H.
  destruct (getAttrs fuel this st) as [attrs|]; [|done].
  cbn [mbind option_bind] in H.
  pose proof (frame_update l _ st rec_le_set_rendered) as F1.
  destruct (has_children node).
  - destruct (attr_expanded attrs).
    + match type of H with context [forSomeChildren ?fn ?t ?a ?s] =>
        destruct (forSomeChildren fn t a s) as [[s1 st1]|] eqn:E; [|done] end.
      cbn [mbind option_bind] in H. simplify_eq.
      eapply (forSomeChildren_inv (frame st)); [| | | |exact E].
      * intros. eapply frame_trans; [eassumption|]. eapply frame_poolFetch; eauto.
      * intros. eapply frame_trans; [eassumption|]. apply frame_poolReturn.
      * intros child i array a st0 ret a' st0' HP Hc.
        apply append_markup_Some in Hc as (h & E2 & _ & _).
        eapply frame_trans; [eassumption|]. eapply IH; eauto.
      * eapply frame_trans; [exact F1|].
        apply frame_update, rec_le_set_childrenRendered.
    + cbn [mbind option_bind] in H. by simplify_eq.
  - destruct (dynamicLoader _ && negb (isLeaf node));
      cbn [mbind option_bind] in H; by simplify_eq.
Qed.

End RenderingFacts.

(** ** The markup of a node *)

Lemma append_cons a s t : String.append (String a s) t = String a (String.append s t).
Proof. reflexivity. Qed.

Lemma append_assoc s1 s2 s3 : (s1 +:+ s2) +:+ s3 = s1 +:+ (s2 +:+ s3).
Proof.
  induction s1 as [|a s1 IH]; [done|]. rewrite !append_cons. by rewrite IH.
Qed.

Lemma append_nil_r s : s +:+ "" = s.
Proof. induction s as [|a s IH]; [done|]. rewrite append_cons. by rewrite IH. Qed.

Lemma rec_le_fields r r' :
  rec_le r r' →
  id r' = id r ∧ label r' = label r ∧ template r' = template r ∧
  expanded r' = expanded r ∧ isLeaf r' = isLeaf r ∧ children r' = children r ∧
  _parent r' = _parent r ∧ _held r' = _held r.
Proof.
  destruct r, r'. unfold rec_le, erase_flags. simpl. intros [E _].
  injection E. intros. subst. done.
Qed.

Lemma frame_lookup st st' l r :
  frame st st' → nodes st !! l = Some r →
  ∃ r', nodes st' !! l = Some r' ∧ rec_le r r'.
Proof.
  intros [N _ _ _ _] H. specialize (N l). rewrite H in N. inversion N. eauto.
Qed.

Lemma getAttrs_Some fuel this st l r a :
  bound_record this st = Some (l, r) →
  getAttrs fuel this st = Some a →
  ∃ d, depth fuel this st = Some d ∧
       a = Attrs (id r) (default "" (label r)) (template r) d
                 (bool_decide (expanded r ≠ JBool false)) "" [] None.
Proof.
  intros Hb H. unfold getAttrs, _expandedGetter in H. rewrite Hb in H.
  cbn [mbind option_bind] in H.
  destruct (depth fuel this st) as [d|]; [|done].
  cbn [mbind option_bind] in H. simplify_eq. eauto.
Qed.

(** ** The pool and the held records *)

Lemma pool_ok_update st l f :
  (∀ r, _held (f r) = _held r) → pool_ok st → pool_ok (update l f st).
Proof.
  intros Hf Hok l' r' H. unfold update in H. simpl in H.
  destruct (decide (l = l')) as [<-|Hne].
  - rewrite lookup_alter_eq in H.
    destruct (nodes st !! l) as [r|] eqn:E; [|done]. simpl in H. simplify_eq.
    specialize (Hok l r E). unfold held_ok in *. rewrite Hf. exact Hok.
  - rewrite lookup_alter_ne in H by done. exact (Hok l' r' H).
Qed.

Lemma pool_ok_poolFetch st c w st' :
  pool_ok st → _poolFetch c st = Some (w, st') →
  pool_ok st' ∧ _node st' !! w = Some c.
Proof.
  intros Hok H. unfold _poolFetch in H.
  destruct (nodes st !! c) as [r|] eqn:Ec; [|done]. cbn [mbind option_bind] in H.
  destruct (_held r) as [h|] eqn:Eh.
  - simplify_eq. split; [done|]. specialize (Hok c r Ec). unfold held_ok in Hok.
    rewrite Eh in Hok. tauto.
  - destruct (pool st) as [|w0 rest] eqn:Ep; simplify_eq.
    + split; [|apply lookup_insert_eq]. intros l' r' H'. simpl in H'.
      specialize (Hok l' r' H'). unfold held_ok in *. simpl.
      destruct (_held r') as [h|]; [|done]. destruct Hok as (Hb & Hp & Hc).
      rewrite lookup_insert_ne by lia. rewrite Ep. split; [done|]. split; [|lia].
      apply not_elem_of_nil.
    + split; [|apply lookup_insert_eq]. intros l' r' H'. simpl in H'.
      specialize (Hok l' r' H'). unfold held_ok in *. simpl.
      destruct (_held r') as [h|]; [|done]. destruct Hok as (Hb & Hp & Hc).
      rewrite Ep in Hp. apply not_elem_of_cons in Hp as [Hne Hp].
      rewrite lookup_insert_ne by done. done.
Qed.

Lemma pool_ok_poolReturn st w : pool_ok st → pool_ok (_poolReturn w st).
Proof.
  intros Hok. unfold _poolReturn. destruct (is_held w st) eqn:Eheld; [done|].
  intros l r H. simpl in H. pose proof (Hok l r H) as Hl.
  unfold held_ok in *. simpl. destruct (_held r) as [h|] eqn:Eh; [|done].
  destruct Hl as (Hb & Hp & Hc).
  assert (h ≠ w) as Hne.
  { intros ->. unfold is_held, bound_record in Eheld. rewrite Hb in Eheld.
    simpl in Eheld. rewrite H in Eheld. simpl in Eheld. rewrite Eh in Eheld.
    apply bool_decide_eq_false in Eheld. apply Eheld. eauto. }
  rewrite lookup_delete_ne by done. split; [done|]. split; [|done].
  apply not_elem_of_cons. done.
Qed.

Lemma visit_in_order_markup render siblings :
  (∀ w i n st h st', pool_ok st → render w i n st = Some (h, st') → pool_ok st') →
  ∀ rest index s st s' st',
    pool_ok st →
    visit_in_order (append_markup render) siblings index rest s st = Some (s', st') →
    ∃ hs, s' = s +:+ join hs ∧ children_markup render siblings index rest st hs st'.
Proof.
  intros Hrender. induction rest as [|c rest IH]; intros index s st s' st' Hok H.
  - simpl in H. simplify_eq. exists []. split; [by rewrite append_nil_r|]. constructor.
  - cbn [visit_in_order] in H.
    destruct (_poolFetch c st) as [[child st1]|] eqn:Ef; [|done].
    cbn [mbind option_bind] in H.
    destruct (append_markup render child index siblings s st1)
      as [[[ret s1] st2]|] eqn:Ea; [|done].
    cbn [mbind option_bind] in H.
    apply append_markup_Some in Ea as (h & Er & -> & ->). simpl in H.
    destruct (pool_ok_poolFetch _ _ _ _ Hok Ef) as [Hok1 Hbound].
    pose proof (Hrender _ _ _ _ _ _ Hok1 Er) as Hok2.
    apply IH in H as (hs & -> & Hcm); [|by apply pool_ok_poolReturn].
    exists (h :: hs). split; [simpl; by rewrite append_assoc|].
    econstructor; eauto.
Qed.

Section MarkupFacts.

Variable sub : string → attrs → string.

(** One call of [_getHTML], taken apart. *)
Lemma _getHTML_Some fuel this index nSiblings depth0 st html st' l r :
  bound_record this st = Some (l, r) →
  _getHTML sub fuel this index nSiblings depth0 st = Some (html, st') →
  ∃ fuel' d s nodeClasses,
    fuel = S fuel' ∧
    depth fuel' this st = Some d ∧
    html = sub (resolve_template r)
             (complete s nodeClasses
                (Attrs (id r) (default "" (label r)) (template r) d
                       (bool_decide (expanded r ≠ JBool false)) "" [] None)) ∧
    if has_children r && bool_decide (expanded r ≠ JBool false)
    then forSomeChildren
           (append_markup (λ fwNode index nSiblings,
              _getHTML sub fuel' fwNode index nSiblings (depth0 + 1)))
           this ""
           (update l (set_childrenRendered true) (update l (set_rendered true) st))
         = Some (s, st')
    else s = "" ∧ st' = update l (set_rendered true) st.
Proof.
  intros Hb H. destruct fuel as [|fuel']; [done|]. cbn [_getHTML] in H.
  rewrite Hb in H. cbn [mbind option_bind] in H.
  destruct (getAttrs fuel' this st) as [a|] eqn:Ea; [|done].
  cbn [mbind option_bind] in H.
  destruct (getAttrs_Some _ _ _ _ _ _ Hb Ea) as (d & Hd & ->). simpl in H.
  destruct (has_children r); simpl.
  - destruct (bool_decide (expanded r ≠ JBool false)).
    + match type of H with context [forSomeChildren ?fn ?t ?a ?s] =>
        destruct (forSomeChildren fn t a s) as [[s1 st1]|] eqn:E; [|done] end.
      cbn [mbind option_bind] in H. simplify_eq. eexists _, _, _, _. eauto.
    + cbn [mbind option_bind] in H. simplify_eq. eexists _, _, _, _. eauto.
  - destruct (dynamicLoader _ && negb (isLeaf r));
      cbn [mbind option_bind] in H; simplify_eq; eexists _, _, _, _; eauto.
Qed.

Lemma _getHTML_pool_ok fuel :
  ∀ this index nSiblings depth st html st',
    pool_ok st →
    _getHTML sub fuel this index nSiblings depth st = Some (html, st') → pool_ok st'.
Proof.
  induction fuel as [|fuel IH]; intros this index nSiblings depth0 st html st' Hok H;
    [done|].
  destruct (bound_record this st) as [[l r]|] eqn:Hb; [|by cbn [_getHTML] in H; rewrite Hb in H].
  destruct (_getHTML_Some _ _ _ _ _ _ _ _ _ _ Hb H)
    as (fuel' & d & s & cls & Hfuel & _ & _ & H').
  injection Hfuel as <-. clear H. rename H' into H.
  assert (pool_ok (update l (set_rendered true) st)) as Hok1
    by (by apply pool_ok_update).
  destruct (has_children r && bool_decide (expanded r ≠ JBool false)).
  - eapply (forSomeChildren_inv pool_ok); [| | | |exact H].
    + intros c st0 w st0' HP Hf. by destruct (pool_ok_poolFetch _ _ _ _ HP Hf).
    + intros. by apply pool_ok_poolReturn.
    + intros child i array a st0 ret a' st0' HP Hc.
      apply append_markup_Some in Hc as (h & E2 & _ & _). eauto.
    + by apply pool_ok_update.
  - by destruct H as [_ ->].
Qed.

End MarkupFacts.

(** ** Rendering returns *)

Lemma depth_loop_mono fuel :
  ∀ fuel' count l st x,
    depth_loop fuel count l st = Some x → (fuel ≤ fuel')%nat →
    depth_loop fuel' count l st = Some x.
Proof.
  induction fuel as [|fuel IH]; intros fuel' count l st x H Hle; [done|].
  destruct fuel' as [|fuel']; [lia|]. cbn [depth_loop] in *.
  destruct (nodes st !! l) as [r|]; [|done]. cbn [mbind option_bind] in *.
  destruct (_parent r); [|done]. apply IH; [done | lia].
Qed.

Lemma same_shape_frame st st' : frame st st' → same_shape st st'.
Proof.
  intros F l. destruct (frame_nodes _ _ F l) as [r r' Hle|]; constructor.
  apply rec_le_fields in Hle. tauto.
Qed.

Lemma same_shape_update st l f :
  (∀ r, children (f r) = children r ∧ _parent (f r) = _parent r) →
  same_shape st (update l f st).
Proof.
  intros Hf l'. destruct (decide (l = l')) as [<-|Hne].
  - rewrite lookup_update. destruct (nodes st !! l); constructor. apply Hf.
  - rewrite lookup_update_ne by done. by destruct (nodes st !! l'); constructor.
Qed.

Lemma depth_loop_shape st st' fuel :
  same_shape st st' → ∀ count l, depth_loop fuel count l st' = depth_loop fuel count l st.
Proof.
  intros F. induction fuel as [|fuel IH]; intros count l; [done|].
  cbn [depth_loop]. destruct (F l) as [r r' [_ Hp]|]; [|done].
  cbn [mbind option_bind]. rewrite Hp. destruct (_parent r); [apply IH | done].
Qed.

Lemma renderable_shape st st' D n :
  same_shape st st' → ∀ l, renderable D n l st' = renderable D n l st.
Proof.
  intros F. induction n as [|n IH]; intros l; [done|].
  cbn [renderable]. destruct (F l) as [r r' [Hc _]|]; [|done]. rewrite Hc.
  rewrite (depth_loop_shape _ _ _ F). f_equal.
  induction (default [] (children r)) as [|c cs IHcs]; [done|].
  simpl. by rewrite IH, IHcs.
Qed.

Lemma renderable_frame st st' D n l :
  frame st st' → renderable D n l st' = renderable D n l st.
Proof. intros F. by apply renderable_shape, same_shape_frame. Qed.

Lemma forallb_Forall {A} (f : A → bool) (xs : list A) :
  forallb f xs = true → Forall (λ x, f x = true) xs.
Proof.
  induction xs as [|x xs IH]; simpl; [constructor|].
  intros [? ?]%andb_true_iff. constructor; auto.
Qed.

Lemma _poolFetch_total c st :
  is_Some (nodes st !! c) → is_Some (_poolFetch c st).
Proof.
  intros [r Hr]. unfold _poolFetch. rewrite Hr. simpl.
  destruct (_held r); [eauto|]. destruct (pool st); eauto.
Qed.

(** If every turn returns and keeps [P], the iteration returns and keeps
    [P]. *)
Lemma some_from_total {A} (P : state → Prop) (Q : loc → Prop)
    (f : loc → nat → list loc → A → state → option (jsval * A * state)) array :
  (∀ node index a st, Q node → P st →
     ∃ ret a' st', f node index array a st = Some (ret, a', st') ∧ P st') →
  ∀ rest, Forall Q rest →
  ∀ index a st, P st →
    ∃ b a' st', some_from f array index rest a st = Some (b, a', st') ∧ P st'.
Proof.
  intros Hf rest HQ. induction HQ as [|c rest Hc _ IH]; intros index a st HP.
  - simpl. eauto.
  - cbn [some_from]. destruct (Hf c index a st Hc HP) as (ret & a1 & st1 & -> & HP1).
    cbn [mbind option_bind]. destruct (truthy ret); eauto.
Qed.

Lemma renderable_inv D n l st :
  renderable D n l st = true →
  ∃ n' r x, n = S n' ∧ nodes st !! l = Some r ∧ depth_loop D 0 l st = Some x ∧
            Forall (λ c, renderable D n' c st = true) (default [] (children r)).
Proof.
  destruct n as [|n']; [done|]. cbn [renderable].
  destruct (nodes st !! l) as [r|]; [|done].
  intros [Hd Hc]%andb_true_iff. apply bool_decide_eq_true in Hd as [x Hx].
  exists n', r, x. split; [done|]. split; [done|]. split; [done|].
  by apply forallb_Forall.
Qed.

(** The children are all rendered when each of them can be. *)
Lemma forSomeChildren_total render D n this l r st :
  (∀ child c i ns st0,
      renderable D n c st0 = true → pool_ok st0 → _node st0 !! child = Some c →
      ∃ h st', render child i ns st0 = Some (h, st') ∧ frame st0 st' ∧ pool_ok st') →
  bound_record this st = Some (l, r) →
  Forall (λ c, renderable D n c st = true) (default [] (children r)) →
  pool_ok st →
  ∃ s st', forSomeChildren (append_markup render) this "" st = Some (s, st')
           ∧ frame st st' ∧ pool_ok st'.
Proof.
  intros Hrender Hb Hcs Hok. unfold forSomeChildren. rewrite Hb.
  cbn [mbind option_bind].
  destruct (children r) as [[|c cs]|]; try by (eexists _, _; eauto using frame_refl).
  unfold YArray_some.
  assert (∀ node i s st0,
            renderable D n node st = true → frame st st0 ∧ pool_ok st0 →
            ∃ ret s' st', visit (append_markup render) node i (c :: cs) s st0
                          = Some (ret, s', st')
                          ∧ (frame st st' ∧ pool_ok st')) as Hturn.
  { intros node i s st0 Hnode [F0 Hok0]. unfold visit.
    assert (renderable D n node st0 = true) as Hnode0
      by (by rewrite (renderable_frame _ _ _ _ _ F0)).
    destruct (renderable_inv _ _ _ _ Hnode0) as (_ & rn & _ & _ & Hn & _ & _).
    destruct (_poolFetch_total node st0) as [[child st1] Hf]; [eauto|].
    rewrite Hf. cbn [mbind option_bind].
    destruct (pool_ok_poolFetch _ _ _ _ Hok0 Hf) as [Hok1 Hchild].
    pose proof (frame_poolFetch _ _ _ _ Hf) as F1.
    destruct (Hrender child node (Z.of_nat i) (Z.of_nat (length (c :: cs))) st1)
      as (h & st4 & Hh & F4 & Hok4);
      [by rewrite (renderable_frame _ _ _ _ _ F1) | done | done |].
    unfold append_markup. rewrite Hh. cbn [mbind option_bind].
    eexists _, _, _. split; [reflexivity|]. split.
    - eapply frame_trans; [exact F0|]. eapply frame_trans; [exact F1|].
      eapply frame_trans; [exact F4 | apply frame_poolReturn].
    - by apply pool_ok_poolReturn. }
  destruct (some_from_total _ _ _ _ Hturn (c :: cs) Hcs 0%nat "" st
              (conj (frame_refl st) Hok)) as (b & s & st3 & -> & F3 & Hok3).
  cbn [mbind option_bind]. eauto.
Qed.

Section Totality.

Variable sub : string → attrs → string.

Lemma getAttrs_total D fuel this st l r x :
  bound_record this st = Some (l, r) → depth_loop D 0 l st = Some x →
  (D ≤ fuel)%nat →
  depth fuel this st = Some (x - 1) ∧
  getAttrs fuel this st
  = Some (Attrs (id r) (default "" (label r)) (template r) (x - 1)
            (bool_decide (expanded r ≠ JBool false)) "" [] None).
Proof.
  intros Hb Hx Hle. pose proof Hb as [Hthis _]%bound_record_Some.
  assert (depth fuel this st = Some (x - 1)) as Hd.
  { unfold depth. rewrite Hthis. cbn [mbind option_bind].
    by rewrite (depth_loop_mono D fuel 0 l st x Hx Hle). }
  split; [done|]. unfold getAttrs, _expandedGetter. rewrite Hb, Hd. done.
Qed.

Lemma _getHTML_total D n :
  ∀ fuel this l index nSiblings depth st,
    renderable D n l st = true → pool_ok st → _node st !! this = Some l →
    (D + n ≤ fuel)%nat →
    ∃ html st', _getHTML sub fuel this index nSiblings depth st = Some (html, st').
Proof.
  induction n as [|n IH]; intros fuel this l index nSiblings depth0 st Hr Hok Hthis Hfuel;
    [done|].
  apply renderable_inv in Hr as (n' & r & x & [= <-] & Hl & Hx & Hcs).
  destruct fuel as [|fuel]; [lia|]. cbn [_getHTML].
  assert (bound_record this st = Some (l, r)) as Hb by (by apply bound_record_Some).
  rewrite Hb. cbn [mbind option_bind].
  destruct (getAttrs_total D fuel this st l r x Hb Hx) as [_ ->]; [lia|].
  cbn [mbind option_bind]. simpl attr_expanded.
  destruct (has_children r) eqn:Hhas.
  2: { destruct (dynamicLoader _ && negb (isLeaf r)); cbn [mbind option_bind]; eauto. }
  destruct (bool_decide (expanded r ≠ JBool false)).
  2: { cbn [mbind option_bind]. eauto. }
  set (st2 := update l (set_childrenRendered true) (update l (set_rendered true) st)).
  assert (frame st st2) as F2.
  { eapply frame_trans; apply frame_update;
      [apply rec_le_set_rendered | apply rec_le_set_childrenRendered]. }
  assert (pool_ok st2) as Hok2.
  { unfold st2. apply pool_ok_update; [done|]. by apply pool_ok_update. }
  destruct (frame_lookup _ _ _ _ F2 Hl) as (r2 & Hl2 & Hle).
  apply rec_le_fields in Hle as (_ & _ & _ & _ & _ & Hch & _ & _).
  edestruct (forSomeChildren_total
               (λ fwNode index nSiblings,
                  _getHTML sub fuel fwNode index nSiblings (depth0 + 1))
               D n this l r2 st2) as (s & st3 & -> & _).
  - intros child c i ns st0 Hc Hok0 Hchild.
    destruct (IH fuel child c i ns (depth0 + 1) st0) as (h & st' & Hh);
      [done | done | done | lia |].
    exists h, st'. split; [done|]. split.
    + eapply _getHTML_frame; eauto.
    + eapply _getHTML_pool_ok; eauto.
  - by apply bound_record_Some.
  - rewrite Hch. eapply Forall_impl; [exact Hcs|]. intros c Hc. simpl in Hc.
    by rewrite (renderable_frame _ _ _ _ _ F2).
  - done.
  - cbn [mbind option_bind]. eauto.
Qed.

End Totality.

(** ** What [_getHTML] gives and marks *)

Section GetHTML.

Variable sub : string → attrs → string.

(** C5: the markup of [_getHTML] is the template resolved with an
    attribute object whose [children] entry is, when the record has
    children and is expanded, the markups of all its children in stored
    order, one after the other, each made by [_getHTML] on a pooled
    instance bound to that child; and the empty string otherwise.  Where
    the tree under the record can be rendered, the call returns. *)
Theorem C5_children_slot this index nSiblings depth0 st l r :
  bound_record this st = Some (l, r) →
  pool_ok st →
  (∀ fuel html st',
     _getHTML sub fuel this index nSiblings depth0 st = Some (html, st') →
     ∃ a, html = sub (resolve_template r) a ∧
          if recurses r
          then ∃ fuel' cs hs,
                 fuel = S fuel' ∧ children r = Some cs ∧
                 children_markup
                   (λ fwNode index nSiblings,
                      _getHTML sub fuel' fwNode index nSiblings (depth0 + 1))
                   cs 0 cs
                   (update l (set_childrenRendered true) (update l (set_rendered true) st))
                   hs st' ∧
                 attr_children a = join hs
          else attr_children a = "") ∧
  (∀ D n fuel, renderable D n l st = true → (D + n ≤ fuel)%nat →
               is_Some (_getHTML sub fuel this index nSiblings depth0 st)).
Proof.
  intros Hb Hok. split.
  - intros fuel html st' H.
    destruct (_getHTML_Some _ _ _ _ _ _ _ _ _ _ _ Hb H)
      as (fuel' & d & s & cls & -> & _ & -> & Hs).
    eexists. split; [reflexivity|]. unfold recurses.
    destruct (has_children r && bool_decide (expanded r ≠ JBool false)) eqn:Hrec.
    + set (st2 := update l (set_childrenRendered true)
                    (update l (set_rendered true) st)) in *.
      assert (pool_ok st2) as Hok2.
      { unfold st2. apply pool_ok_update; [done|]. by apply pool_ok_update. }
      destruct (bound_record this st2) as [[l2 r2]|] eqn:Hb2;
        [|by unfold forSomeChildren in Hs; rewrite Hb2 in Hs].
      rewrite (forSomeChildren_visit _ _ _ _ _ _ Hb2) in Hs.
      assert (l2 = l ∧ children r2 = children r) as [-> Hch].
      { apply bound_record_Some in Hb as [Hw Hl].
        apply bound_record_Some in Hb2 as [Hw2 Hl2]. simpl in Hw2.
        assert (l2 = l) as -> by congruence. split; [done|].
        unfold st2 in Hl2. rewrite !lookup_update, Hl in Hl2. simpl in Hl2.
        by simplify_eq. }
      rewrite Hch in Hs. apply andb_true_iff in Hrec as [Hhas _].
      unfold has_children in Hhas.
      destruct (children r) as [cs|] eqn:Hcs; [|done]. simpl in Hs.
      apply visit_in_order_markup in Hs as (hs & -> & Hcm);
        [|intros; eapply _getHTML_pool_ok; eauto|done].
      exists fuel', cs, hs. done.
    + by destruct Hs as [-> _].
  - intros D n fuel Hr Hfuel. apply bound_record_Some in Hb as [Hw _].
    destruct (_getHTML_total sub D n fuel this l index nSiblings depth0 st)
      as (html & st' & ->); eauto.
Qed.

(** C6: [_getHTML] leaves the bound record with [_rendered] true, with
    [_childrenRendered] true when it went into the children and as it was
    when it did not, and with every other field as it was; every other
    record of the tree keeps its fields too, render flags apart.  Where
    the tree under the record can be rendered, the call returns. *)
Theorem C6_render_flags this index nSiblings depth0 st l r :
  bound_record this st = Some (l, r) →
  (∀ fuel html st',
     _getHTML sub fuel this index nSiblings depth0 st = Some (html, st') →
     (∃ r', nodes st' !! l = Some r' ∧
            _rendered r' = true ∧
            _childrenRendered r' = (if recurses r then true else _childrenRendered r) ∧
            erase_flags r' = erase_flags r) ∧
     ∀ l0 r0, nodes st !! l0 = Some r0 →
              ∃ r0', nodes st' !! l0 = Some r0' ∧ erase_flags r0' = erase_flags r0) ∧
  (∀ D n fuel, renderable D n l st = true → pool_ok st → (D + n ≤ fuel)%nat →
               is_Some (_getHTML sub fuel this index nSiblings depth0 st)).
Proof.
  intros Hb. split.
  - intros fuel html st' H. split.
    + destruct (_getHTML_Some _ _ _ _ _ _ _ _ _ _ _ Hb H)
        as (fuel' & d & s & cls & -> & _ & _ & Hs).
      apply bound_record_Some in Hb as [Hw Hl]. unfold recurses.
      destruct (has_children r && bool_decide (expanded r ≠ JBool false)).
      * set (st2 := update l (set_childrenRendered true)
                      (update l (set_rendered true) st)) in *.
        assert (frame st2 st') as F.
        { eapply (forSomeChildren_inv (frame st2)); [| | |apply frame_refl|exact Hs].
          - intros. eapply frame_trans; [eassumption|]. eapply frame_poolFetch; eauto.
          - intros. eapply frame_trans; [eassumption|]. apply frame_poolReturn.
          - intros child i array a st0 ret a' st0' HP Hc.
            apply append_markup_Some in Hc as (h & E2 & _ & _).
            eapply frame_trans; [eassumption|]. eapply _getHTML_frame; eauto. }
        assert (nodes st2 !! l
                = Some (set_childrenRendered true (set_rendered true r))) as Hl2.
        { unfold st2. by rewrite !lookup_update, Hl. }
        destruct (frame_lookup _ _ _ _ F Hl2) as (r' & Hl' & E & Hr & Hc).
        exists r'. split; [done|]. split; [by apply Hr|]. split; [by apply Hc|].
        rewrite E. by destruct r.
      * destruct Hs as [_ ->]. exists (set_rendered true r).
        rewrite lookup_update, Hl. done.
    + intros l0 r0 Hl0. apply _getHTML_frame in H.
      destruct (frame_lookup _ _ _ _ H Hl0) as (r0' & ? & ? & _). eauto.
  - intros D n fuel Hr Hok Hfuel. apply bound_record_Some in Hb as [Hw _].
    destruct (_getHTML_total sub D n fuel this l index nSiblings depth0 st)
      as (html & st' & ->); eauto.
Qed.

End GetHTML.

Lemma pool_ok_xyz loader : pool_ok (xyz_state loader).
Proof. destruct loader; compute_done. Qed.

Lemma C5_children_slot_witness :
  ∃ st', _getHTML plain_sub 5 3%nat 0 1 0 (xyz_state false)
         = Some ("top[x[]y[]z[]]", st').
Proof.
  destruct (C5_children_slot plain_sub 3%nat 0 1 0 (xyz_state false) 1%nat
              (Record (Some (Named "top")) (Some "top") None JUndefined false
                 (Some [2%nat; 3%nat; 4%nat]) (Some 0%nat) false false None)
              eq_refl (pool_ok_xyz false)) as [_ Htotal].
  destruct (Htotal 3%nat 2%nat 5%nat eq_refl (le_n 5)) as [[html st'] H].
  exists st'. rewrite H. f_equal. f_equal.
  vm_compute in H. by simplify_eq.
Defined.

Lemma C6_render_flags_witness :
  ∃ html st' r',
    _getHTML plain_sub 5 3%nat 0 1 0 (xyz_state false) = Some (html, st') ∧
    nodes st' !! 1%nat = Some r' ∧ _rendered r' = true ∧ _childrenRendered r' = true.
Proof.
  destruct (C6_render_flags plain_sub 3%nat 0 1 0 (xyz_state false) 1%nat
              (Record (Some (Named "top")) (Some "top") None JUndefined false
                 (Some [2%nat; 3%nat; 4%nat]) (Some 0%nat) false false None)
              eq_refl) as [Hflags Htotal].
  destruct (Htotal 3%nat 2%nat 5%nat eq_refl (pool_ok_xyz false) (le_n 5))
    as [[html st'] H].
  destruct (Hflags 5%nat html st' H) as [(r' & Hr' & Hrendered & Hchildren & _) _].
  exists html, st', r'. split; [exact H|]. split; [exact Hr'|].
  split; [exact Hrendered | exact Hchildren].
Defined.

(** ** The expanded attribute *)

Section Setter.

Variable sub : string → attrs → string.

Lemma bound_record_update this st l r f :
  bound_record this st = Some (l, r) →
  bound_record this (update l f st) = Some (l, f r).
Proof.
  intros [Hw Hl]%bound_record_Some. apply bound_record_Some. simpl.
  split; [done|]. by rewrite lookup_alter_eq, Hl.
Qed.

Lemma _renderChildren_Some fuel this st st' l r :
  bound_record this st = Some (l, r) →
  _renderChildren sub fuel this st = Some st' →
  ∃ s st1, frame st st1 ∧ st' = emit (SetContent (ChildrenOf (id r)) s) st1.
Proof.
  intros Hb H. unfold _renderChildren in H. rewrite Hb in H.
  cbn [mbind option_bind] in H.
  destruct (depth fuel this st) as [d|]; [|done].
  cbn [mbind option_bind] in H.
  match type of H with context [forSomeChildren ?fn ?t ?a ?s] =>
    destruct (forSomeChildren fn t a s) as [[s1 st1]|] eqn:E; [|done] end.
  cbn [mbind option_bind] in H.
  assert (frame st st1) as F.
  { eapply (forSomeChildren_inv (frame st)); [| | | |exact E].
    - intros. eapply frame_trans; [eassumption|]. eapply frame_poolFetch; eauto.
    - intros. eapply frame_trans; [eassumption|]. apply frame_poolReturn.
    - intros child i array a st0 ret a' st0' HP Hc.
      apply append_markup_Some in Hc as (h & E2 & _ & _).
      eapply frame_trans; [eassumption|]. eapply _getHTML_frame; eauto.
    - apply frame_update, rec_le_set_childrenRendered. }
  apply bound_record_Some in Hb as [_ Hl].
  destruct (frame_lookup _ _ _ _ F Hl) as (r1 & Hl1 & Hle).
  rewrite Hl1 in H. cbn [mbind option_bind] in H. simplify_eq.
  apply rec_le_fields in Hle as (-> & _). eauto.
Qed.

Lemma _renderChildren_total D n fuel this st l :
  renderable D (S n) l st = true → pool_ok st → _node st !! this = Some l →
  (D + n ≤ fuel)%nat →
  is_Some (_renderChildren sub fuel this st).
Proof.
  intros Hr Hok Hthis Hfuel.
  apply renderable_inv in Hr as (n' & r & x & [= <-] & Hl & Hx & Hcs).
  assert (bound_record this st = Some (l, r)) as Hb by (by apply bound_record_Some).
  unfold _renderChildren. rewrite Hb. cbn [mbind option_bind].
  destruct (getAttrs_total D fuel this st l r x Hb Hx) as [-> _]; [lia|].
  cbn [mbind option_bind].
  set (st2 := update l (set_childrenRendered true) st).
  assert (frame st st2) as F2 by apply frame_update, rec_le_set_childrenRendered.
  assert (pool_ok st2) as Hok2 by (by apply pool_ok_update).
  edestruct (forSomeChildren_total
               (λ fwNode index nSiblings,
                  _getHTML sub fuel fwNode index nSiblings (x - 1 + 1))
               D n this l (set_childrenRendered true r) st2)
    as (s & st3 & -> & F3 & _).
  - intros child c i ns st0 Hc Hok0 Hchild.
    destruct (_getHTML_total sub D n fuel child c i ns (x - 1 + 1) st0)
      as (h & st' & Hh); [done | done | done | lia |].
    exists h, st'. split; [done|]. split.
    + eapply _getHTML_frame; eauto.
    + eapply _getHTML_pool_ok; eauto.
  - by apply bound_record_update.
  - simpl. eapply Forall_impl; [exact Hcs|]. intros c Hc. simpl in Hc.
    by rewrite (renderable_frame _ _ _ _ _ F2).
  - done.
  - cbn [mbind option_bind].
    destruct (frame_lookup _ _ _ _ (frame_trans _ _ _ F2 F3) Hl) as (r3 & -> & _).
    cbn [mbind option_bind]. eauto.
Qed.

(** [_expandedSetter], branch by branch. *)
Lemma _expandedSetter_cases fuel this v st l r :
  bound_record this st = Some (l, r) →
  let st0 := update l (set_expanded (JBool (truthy v))) st in
  _expandedSetter sub fuel this v st =
  if eligible (dynamicLoader st) r
  then Some (emit (CallLoader this l)
               (emit (ReplaceClass (ById (id r)) CNAME_COLLAPSED CNAME_LOADING) st0))
  else if has_children r then
    if truthy v then
      st1 ← (if negb (_childrenRendered r) then _renderChildren sub fuel this st0
             else Some st0);
      Some (emit (ReplaceClass (ById (id r)) CNAME_COLLAPSED CNAME_EXPANDED) st1)
    else Some (emit (ReplaceClass (ById (id r)) CNAME_EXPANDED CNAME_COLLAPSED) st0)
  else Some st0.
Proof.
  intros Hb st0. unfold _expandedSetter. rewrite Hb. cbn [mbind option_bind].
  destruct (eligible (dynamicLoader st) r); [|done].
  unfold _loadDynamic.
  rewrite (bound_record_update _ _ _ _ (set_expanded (JBool (truthy v))) Hb).
  done.
Qed.

End Setter.

Section ExpandedAttribute.

Variable sub : string → attrs → string.

(** C2 (amended): on an instance bound to a record that is not eligible
    for dynamic loading (no loader is configured, or the record is a leaf,
    or it has children), setting [expanded] to a falsy value only writes
    [false] in the record's [expanded] and, when the record has children,
    swaps the expanded class for the collapsed one: the loader is not
    called and nothing is rendered. *)
Theorem C2_collapse_without_loading fuel this v st l r :
  bound_record this st = Some (l, r) →
  eligible (dynamicLoader st) r = false →
  truthy v = false →
  collapse_only_reclassifies sub fuel this v st ∧
  _expandedSetter sub fuel this v st
  = Some (if has_children r
          then emit (ReplaceClass (ById (id r)) CNAME_EXPANDED CNAME_COLLAPSED)
                 (update l (set_expanded (JBool false)) st)
          else update l (set_expanded (JBool false)) st).
Proof.
  intros Hb Hel Hv.
  pose proof (_expandedSetter_cases sub fuel this v st l r Hb) as H.
  rewrite Hel, Hv in H. split.
  - intros l' r' Hb'. rewrite Hb in Hb'. simplify_eq. rewrite H.
    destruct (has_children r'); eauto.
  - rewrite H. by destruct (has_children r).
Qed.

(** C9: whatever is assigned, when [_expandedSetter] returns the record's
    [expanded] holds the value coerced to a boolean.  On a record
    eligible for dynamic loading the setter returns, with the loader
    called and the field written all the same.  Where the tree under the
    record can be rendered, the setter returns in every branch. *)
Theorem C9_expanded_field_written this v st l r :
  bound_record this st = Some (l, r) →
  (∀ fuel st', _expandedSetter sub fuel this v st = Some st' →
               (expanded <$> nodes st' !! l) = Some (JBool (truthy v))) ∧
  (eligible (dynamicLoader st) r = true →
   ∀ fuel, ∃ st', _expandedSetter sub fuel this v st = Some st' ∧
                  CallLoader this l ∈ trace st' ∧
                  (expanded <$> nodes st' !! l) = Some (JBool (truthy v))) ∧
  (∀ D n fuel, renderable D (S n) l st = true → pool_ok st → (D + n ≤ fuel)%nat →
               is_Some (_expandedSetter sub fuel this v st)).
Proof.
  intros Hb. pose proof Hb as [Hw Hl]%bound_record_Some.
  set (st0 := update l (set_expanded (JBool (truthy v))) st).
  assert ((expanded <$> nodes st0 !! l) = Some (JBool (truthy v))) as H0.
  { unfold st0. by rewrite lookup_update, Hl. }
  pose proof (_expandedSetter_cases sub) as Hcases.
  split; [|split].
  - intros fuel st' H. rewrite (Hcases fuel this v st l r Hb) in H. fold st0 in H.
    destruct (eligible (dynamicLoader st) r); [simplify_eq; exact H0|].
    destruct (has_children r); [|simplify_eq; exact H0].
    destruct (truthy v) in H; [|simplify_eq; exact H0].
    destruct (negb (_childrenRendered r));
      [|cbn [mbind option_bind] in H; simplify_eq; exact H0].
    destruct (_renderChildren sub fuel this st0) as [st1|] eqn:Hr; [|done].
    cbn [mbind option_bind] in H. simplify_eq.
    assert (bound_record this st0 = Some (l, set_expanded (JBool (truthy v)) r)) as Hb0
      by (by apply bound_record_update).
    destruct (_renderChildren_Some sub _ _ _ _ _ _ Hb0 Hr) as (s & st2 & F & ->).
    simpl. apply bound_record_Some in Hb0 as [_ Hl0].
    destruct (frame_lookup _ _ _ _ F Hl0) as (r2 & -> & Hle).
    apply rec_le_fields in Hle as (_ & _ & _ & He & _). simpl. by rewrite He.
  - intros Hel fuel. rewrite (Hcases fuel this v st l r Hb), Hel. fold st0.
    eexists. split; [reflexivity|]. split; [|done]. simpl.
    apply elem_of_app. right. apply list_elem_of_singleton. done.
  - intros D n fuel Hr Hok Hfuel. rewrite (Hcases fuel this v st l r Hb). fold st0.
    destruct (eligible (dynamicLoader st) r); [eauto|].
    destruct (has_children r); [|eauto].
    destruct (truthy v); [|eauto].
    destruct (negb (_childrenRendered r)); [|cbn [mbind option_bind]; eauto].
    assert (same_shape st st0) as Hsh by (unfold st0; by apply same_shape_update).
    assert (renderable D (S n) l st0 = true) as Hr0
      by (by rewrite (renderable_shape _ _ _ _ Hsh)).
    assert (pool_ok st0) as Hok0 by (unfold st0; by apply pool_ok_update).
    destruct (_renderChildren_total sub D n fuel this st0 l Hr0 Hok0 Hw Hfuel)
      as [st1 ->].
    cbn [mbind option_bind]. eauto.
Qed.

(** After a falsy answer, sets of [expanded] on the record only write the
    field. *)
Lemma set_each_on_leaf fuel l sets :
  ∀ st r,
    nodes st !! l = Some r → isLeaf r = true → has_children r = false →
    Forall (λ wv, _node st !! wv.1 = Some l) sets →
    ∃ st2, set_each sub fuel sets st = Some st2 ∧ trace st2 = trace st ∧
           (isLeaf <$> nodes st2 !! l) = Some true.
Proof.
  induction sets as [|[w v] sets IH]; intros st r Hl Hleaf Hno Hsets.
  - exists st. by rewrite Hl, <- Hleaf.
  - apply Forall_cons in Hsets as [Hw Hsets]. simpl in Hw.
    assert (bound_record w st = Some (l, r)) as Hb by (by apply bound_record_Some).
    cbn [set_each]. rewrite (_expandedSetter_cases sub fuel w v st l r Hb).
    unfold eligible. rewrite Hleaf, Hno, andb_false_r. cbn [mbind option_bind andb].
    destruct (IH (update l (set_expanded (JBool (truthy v))) st)
                 (set_expanded (JBool (truthy v)) r)) as (st2 & -> & Ht & Hl2);
      [by rewrite lookup_update, Hl | done | done | done |].
    exists st2. done.
Qed.

(** C3 (amended): when the loader resumes with a falsy answer on an
    instance bound to a record eligible for dynamic loading, the record's
    [isLeaf] becomes true, the loading class is replaced by the
    no-children one, and every later set of [expanded] through an
    instance bound to that record returns without calling the loader. *)
Theorem C3_falsy_answer_makes_leaf fuel this st :
  leaf_fallback sub fuel this None st.
Proof.
  intros l r Hb Hel. pose proof Hb as [Hw Hl]%bound_record_Some.
  exists (emit (ReplaceClass (ById (id r)) CNAME_LOADING CNAME_NOCHILDREN)
            (update l (set_isLeaf true) st)).
  split; [|split; [|split]].
  - unfold _dynamicLoadReturn. rewrite Hb. cbn [mbind option_bind].
    by rewrite lookup_update, Hl.
  - simpl. by rewrite lookup_alter_eq, Hl.
  - simpl. apply last_snoc.
  - intros sets Hsets.
    destruct (set_each_on_leaf fuel l sets
                (emit (ReplaceClass (ById (id r)) CNAME_LOADING CNAME_NOCHILDREN)
                   (update l (set_isLeaf true) st)) (set_isLeaf true r))
      as (st2 & Hrun & Ht & _); try done.
    + simpl. by rewrite lookup_alter_eq, Hl.
    + unfold eligible in Hel. apply andb_true_iff in Hel as [_ Hno].
      by apply negb_true_iff in Hno.
    + exists st2. split; [done|]. intros w. rewrite Ht, drop_all.
      apply not_elem_of_nil.
Qed.

End ExpandedAttribute.

(** C2, as first stated, fails: with a loader configured, collapsing the
    childless record x, which is not a leaf, calls the loader. *)
Lemma C2_collapse_calls_loader :
  ¬ collapse_only_reclassifies plain_sub 0 0%nat (JBool false) (xyz_state true).
Proof.
  intros H. destruct (H 2%nat (leaf_record "x" 1%nat) eq_refl) as (st' & Hrun & Hst').
  vm_compute in Hrun. injection Hrun as <-.
  destruct Hst' as [Hst' | Hst']; apply (f_equal trace) in Hst';
    vm_compute in Hst'; discriminate Hst'.
Qed.

Example collapse_of_x_loads :
  trace <$> _expandedSetter plain_sub 0 0%nat (JBool false) (xyz_state true)
  = Some [ReplaceClass (ById (Some (Named "x"))) CNAME_COLLAPSED CNAME_LOADING;
          CallLoader 0%nat 2%nat].
Proof. vm_compute. reflexivity. Qed.

Lemma C2_collapse_without_loading_witness :
  _expandedSetter plain_sub 0 3%nat (JBool false) (xyz_state true)
  = Some (emit (ReplaceClass (ById (Some (Named "top"))) CNAME_EXPANDED CNAME_COLLAPSED)
            (update 1%nat (set_expanded (JBool false)) (xyz_state true))).
Proof.
  exact (proj2 (C2_collapse_without_loading plain_sub 0 3%nat (JBool false)
                  (xyz_state true) 1%nat
                  (Record (Some (Named "top")) (Some "top") None JUndefined false
                     (Some [2%nat; 3%nat; 4%nat]) (Some 0%nat) false false None)
                  eq_refl eq_refl eq_refl)).
Defined.

Lemma C9_expanded_field_written_witness :
  ∃ st', _expandedSetter plain_sub 0 0%nat (JNum 7) (xyz_state true) = Some st' ∧
         CallLoader 0%nat 2%nat ∈ trace st' ∧
         (expanded <$> nodes st' !! 2%nat) = Some (JBool true).
Proof.
  destruct (C9_expanded_field_written plain_sub 0%nat (JNum 7) (xyz_state true) 2%nat
              (leaf_record "x" 1%nat) eq_refl) as (_ & Hload & _).
  exact (Hload eq_refl 0%nat).
Defined.

(** C3, as first stated, fails: an empty array is an answer like any
    other array; x gets no children, stays a non-leaf and is classified
    expanded. *)
Lemma C3_empty_array_is_not_falsy :
  ¬ leaf_fallback plain_sub 3 0%nat (Some []) (xyz_state true).
Proof.
  intros H. destruct (H 2%nat (leaf_record "x" 1%nat) eq_refl eq_refl)
    as (st1 & Hrun & Hleaf & _).
  vm_compute in Hrun. injection Hrun as <-. vm_compute in Hleaf. discriminate Hleaf.
Qed.

Example empty_array_then_expand_loads_again :
  trace <$> (_dynamicLoadReturn plain_sub 3 0%nat (Some []) (xyz_state true)
             ≫= _expandedSetter plain_sub 3 0%nat (JBool true))
  = Some [SetContent (ChildrenOf (Some (Named "x"))) "";
          ReplaceClass (ById (Some (Named "x"))) CNAME_LOADING CNAME_EXPANDED;
          ReplaceClass (ById (Some (Named "x"))) CNAME_COLLAPSED CNAME_LOADING;
          CallLoader 0%nat 2%nat].
Proof. vm_compute. reflexivity. Qed.

Lemma C3_falsy_answer_makes_leaf_witness :
  ∃ st1, _dynamicLoadReturn plain_sub 0 0%nat None (xyz_state true) = Some st1 ∧
         (isLeaf <$> nodes st1 !! 2%nat) = Some true ∧
         ∃ st2, set_each plain_sub 0 [(0%nat, JBool true); (0%nat, JBool false)] st1
                = Some st2 ∧
                ∀ w, CallLoader w 2%nat ∉ drop (length (trace st1)) (trace st2).
Proof.
  destruct (C3_falsy_answer_makes_leaf plain_sub 0 0%nat (xyz_state true) 2%nat
              (leaf_record "x" 1%nat) eq_refl eq_refl) as (st1 & Hrun & Hleaf & _ & Hsets).
  exists st1. split; [exact Hrun|]. split; [exact Hleaf|].
  apply Hsets. vm_compute in Hrun. injection Hrun as <-.
  repeat constructor.
Defined.

(** * Further properties *)

(** ** The pool while rendering *)

Lemma balanced_refl st : balanced st st.
Proof.
  split; [done|]. split; [done|]. by rewrite Nat.sub_diag.
Qed.

Lemma balanced_trans st1 st2 st3 :
  balanced st1 st2 → balanced st2 st3 → balanced st1 st3.
Proof.
  intros (N1 & C1 & P1) (N2 & C2 & P2). split; [congruence|]. split; [lia|].
  rewrite P2, P1.
  replace (created st3 - created st1)%nat
    with ((created st2 - created st1) + (created st3 - created st2))%nat by lia.
  rewrite seq_app.
  replace (created st1 + (created st2 - created st1))%nat with (created st2) by lia.
  rewrite <- !(assoc_L (++)).
  rewrite (assoc_L (++) (seq (created st2) _)), (assoc_L (++) (seq (created st1) _)).
  apply Permutation_app_tail, Permutation_app_comm.
Qed.

Lemma pool_wf_update st l f : pool_wf st → pool_wf (update l f st).
Proof. done. Qed.

Lemma balanced_update st l f : balanced st (update l f st).
Proof. exact (balanced_refl st). Qed.

(** One fetch and, after whatever keeps the discipline, the return of the
    instance fetched: the discipline holds again, and the free list has
    grown by one instance at most, and only where it had none to give. *)
Lemma fetch_return_bracket st c child st1 :
  pool_ok st → pool_wf st → _poolFetch c st = Some (child, st1) →
  pool_wf st1 ∧
  ∀ st2, frame st1 st2 → pool_ok st2 → pool_wf st2 → balanced st1 st2 →
    pool_wf (_poolReturn child st2) ∧
    balanced st (_poolReturn child st2) ∧
    ∀ m, (length (pool st2) ≤ length (pool st1) `max` m)%nat →
         (length (pool (_poolReturn child st2)) ≤ length (pool st) `max` S m)%nat.
Proof.
  intros Hok (Hnd & Hfree & Hmade) Hf.
  destruct (pool_ok_poolFetch _ _ _ _ Hok Hf) as [Hok1 Hchild].
  unfold _poolFetch in Hf.
  destruct (nodes st !! c) as [rc|] eqn:Ec; [|done]. cbn [mbind option_bind] in Hf.
  destruct (_held rc) as [h|] eqn:Eh.
  - (* the record is held: its instance is given and kept *)
    simplify_eq. split; [done|]. intros st2 F Hok2 Hwf2 Hbal.
    assert (is_held child st2 = true) as Hheld.
    { destruct (frame_lookup _ _ _ _ F Ec) as (rc2 & Ec2 & Hle).
      apply rec_le_fields in Hle as (_ & _ & _ & _ & _ & _ & _ & Hh).
      unfold is_held, bound_record. destruct Hbal as (-> & _). rewrite Hchild.
      cbn [mbind option_bind]. rewrite Ec2. cbn [mbind option_bind].
      rewrite Hh, Eh. done. }
    unfold _poolReturn. rewrite Hheld. split; [done|]. split; [done|].
    intros m Hm. lia.
  - assert (∀ w rest st1',
              _node st !! w = None → NoDup (w :: rest) →
              Forall (λ w', _node st !! w' = None ∧ (w' < created st1')%nat) rest →
              (w < created st1')%nat → (created st ≤ created st1')%nat →
              _node st1' = <[w:=c]> (_node st) → pool st1' = rest →
              nodes st1' = nodes st → dynamicLoader st1' = dynamicLoader st →
              pool_wf st1' ∧
              ∀ st2, frame st1' st2 → pool_ok st2 → pool_wf st2 → balanced st1' st2 →
                pool_wf (_poolReturn w st2) ∧
                _node (_poolReturn w st2) = _node st ∧
                pool (_poolReturn w st2) = w :: pool st2 ∧
                created (_poolReturn w st2) = created st2) as Hcase.
    { intros w rest st1' Hw Hnd' Hrest Hlt Hle Hnode Hpool Hnodes Hload.
      apply NoDup_cons in Hnd' as [Hwrest Hndrest]. split.
      - split; [by rewrite Hpool|]. split.
        + rewrite Hpool. eapply Forall_impl; [apply Forall_and; split;
            [exact Hrest | apply Forall_forall; intros x Hx; exact Hx]|].
          intros w' [[Hn Hc] Hin]. split; [|done]. rewrite Hnode.
          rewrite lookup_insert_ne; [done|]. intros ->. done.
        + rewrite Hnode. apply map_Forall_insert_2; [done|].
          intros w' l' Hl'. specialize (Hmade w' l' Hl'). simpl in Hmade. lia.
      - intros st2 F Hok2 (Hnd2 & Hfree2 & Hmade2) (Hn2 & Hc2 & Hp2).
        assert (is_held w st2 = false) as Hheld.
        { assert (nodes st1' !! c = Some rc) as Ec1 by (by rewrite Hnodes).
          destruct (frame_lookup _ _ _ _ F Ec1) as (rc2 & Ec2 & Hrle).
          apply rec_le_fields in Hrle as (_ & _ & _ & _ & _ & _ & _ & Hh).
          unfold is_held, bound_record. rewrite Hn2, Hnode, lookup_insert_eq.
          cbn [mbind option_bind]. rewrite Ec2. cbn [mbind option_bind].
          rewrite Hh, Eh. done. }
        assert (w ∉ pool st2) as Hwout.
        { intros Hin. rewrite Forall_forall in Hfree2.
          destruct (Hfree2 w Hin) as [Hnone _].
          rewrite Hn2, Hnode, lookup_insert_eq in Hnone. done. }
        unfold _poolReturn. rewrite Hheld. simpl.
        split; [|split; [|done]].
        + split; [by apply NoDup_cons|]. split.
          * simpl. apply Forall_cons. split.
            -- split; [apply lookup_delete_eq | lia].
            -- eapply Forall_impl; [exact Hfree2|]. intros w' [Hn Hc].
               split; [|done]. simpl. rewrite lookup_delete. by case_decide.
          * simpl. by apply map_Forall_delete.
        + rewrite Hn2, Hnode. by apply delete_insert_id. }
    destruct (pool st) as [|w rest] eqn:Ep; simplify_eq.
    + (* nothing to give: an instance is made *)
      assert (_node st !! created st = None) as Hfresh.
      { destruct (_node st !! created st) as [l'|] eqn:E; [|done].
        specialize (Hmade _ _ E). simpl in Hmade. lia. }
      destruct (Hcase (created st) [] (_slideTo (created st) c (set_created (S (created st)) st)))
        as [Hwf1 Hret]; try done; simpl; try lia.
      { apply NoDup_singleton. }
      split; [done|]. intros st2 F Hok2 Hwf2 Hbal.
      destruct (Hret st2 F Hok2 Hwf2 Hbal) as (Hwf3 & Hn3 & Hp3 & Hc3).
      split; [done|]. destruct Hbal as (_ & Hc2 & Hp2). simpl in Hc2, Hp2.
      split.
      * split; [done|]. rewrite Hc3. split; [lia|]. rewrite Hp3, Hp2.
        replace (created st2 - created st)%nat
          with (S (created st2 - S (created st)))%nat by lia.
        done.
      * intros m Hm. rewrite Hp3. simpl in Hm |- *. rewrite ?Ep in Hm. simpl in Hm. lia.
    + (* an instance is popped *)
      apply Forall_cons in Hfree as [[Hwnone Hwlt] Hfree].
      destruct (Hcase child rest (_slideTo child c (set_pool rest st)))
        as [Hwf1 Hret]; try done.
      split; [done|]. intros st2 F Hok2 Hwf2 Hbal.
      destruct (Hret st2 F Hok2 Hwf2 Hbal) as (Hwf3 & Hn3 & Hp3 & Hc3).
      split; [done|]. destruct Hbal as (_ & Hc2 & Hp2). simpl in Hc2, Hp2.
      split.
      * split; [done|]. rewrite Hc3. split; [done|]. rewrite Hp3, Hp2, Ep.
        apply Permutation_middle.
      * intros m Hm. rewrite Hp3. simpl in Hm |- *. rewrite ?Ep in Hm. simpl in Hm. lia.
Qed.

(** What a call keeps of the pool. *)
Lemma visit_keeps_discipline render :
  (∀ w i n st h st',
      pool_ok st → pool_wf st → render w i n st = Some (h, st') →
      frame st st' ∧ pool_ok st' ∧ pool_wf st' ∧ balanced st st') →
  ∀ node index array s st ret s' st',
    pool_ok st ∧ pool_wf st →
    visit (append_markup render) node index array s st = Some (ret, s', st') →
    frame st st' ∧ pool_ok st' ∧ pool_wf st' ∧ balanced st st'.
Proof.
  intros Hrender node index array s st ret s' st' [Hok Hwf] H. unfold visit in H.
  destruct (_poolFetch node st) as [[child st1]|] eqn:Ef; [|done].
  cbn [mbind option_bind] in H.
  destruct (append_markup render child index array s st1) as [[[ret' s1] st2]|] eqn:Ea;
    [|done].
  cbn [mbind option_bind] in H. simplify_eq.
  apply append_markup_Some in Ea as (h & Er & _ & _).
  destruct (pool_ok_poolFetch _ _ _ _ Hok Ef) as [Hok1 _].
  destruct (fetch_return_bracket _ _ _ _ Hok Hwf Ef) as [Hwf1 Hret].
  destruct (Hrender _ _ _ _ _ _ Hok1 Hwf1 Er) as (F2 & Hok2 & Hwf2 & Hbal2).
  destruct (Hret st2 F2 Hok2 Hwf2 Hbal2) as (Hwf3 & Hbal3 & _).
  split; [|split; [by apply pool_ok_poolReturn|done]].
  eapply frame_trans; [eapply frame_poolFetch; exact Ef|].
  eapply frame_trans; [exact F2 | apply frame_poolReturn].
Qed.

Lemma forSomeChildren_keeps_discipline render this s st s' st' :
  (∀ w i n st h st',
      pool_ok st → pool_wf st → render w i n st = Some (h, st') →
      frame st st' ∧ pool_ok st' ∧ pool_wf st' ∧ balanced st st') →
  pool_ok st → pool_wf st →
  forSomeChildren (append_markup render) this s st = Some (s', st') →
  frame st st' ∧ pool_ok st' ∧ pool_wf st' ∧ balanced st st'.
Proof.
  intros Hrender Hok Hwf H. unfold forSomeChildren in H.
  destruct (bound_record this st) as [[l r]|]; [|done]. cbn [mbind option_bind] in H.
  destruct (children r) as [[|c cs]|];
    try (simplify_eq; eauto using frame_refl, balanced_refl).
  unfold YArray_some in H.
  destruct (some_from (visit (append_markup render)) (c :: cs) 0 (c :: cs) s st)
    as [[[b s1] st1]|] eqn:E; [|done].
  cbn [mbind option_bind] in H. simplify_eq.
  eapply (some_from_inv
            (λ st0, frame st st0 ∧ pool_ok st0 ∧ pool_wf st0 ∧ balanced st st0));
    [|split; [apply frame_refl|split; [done|split; [done|apply balanced_refl]]]
     |exact E].
  intros node index a st0 ret a' st0' (F0 & Hok0 & Hwf0 & Hbal0) Hv.
  destruct (visit_keeps_discipline render Hrender _ _ _ _ _ _ _ _ (conj Hok0 Hwf0) Hv)
    as (F & Hok' & Hwf' & Hbal').
  split; [eapply frame_trans; eauto|]. split; [done|]. split; [done|].
  eapply balanced_trans; eauto.
Qed.

Section PoolFacts.

Variable sub : string → attrs → string.

Lemma _getHTML_keeps_discipline fuel :
  ∀ this index nSiblings depth0 st html st',
    pool_ok st → pool_wf st →
    _getHTML sub fuel this index nSiblings depth0 st = Some (html, st') →
    frame st st' ∧ pool_ok st' ∧ pool_wf st' ∧ balanced st st'.
Proof.
  induction fuel as [|fuel IH]; intros this index nSiblings depth0 st html st' Hok Hwf H;
    [done|].
  split; [eapply _getHTML_frame; eauto|]. split; [eapply _getHTML_pool_ok; eauto|].
  destruct (bound_record this st) as [[l r]|] eqn:Hb;
    [|by cbn [_getHTML] in H; rewrite Hb in H].
  destruct (_getHTML_Some _ _ _ _ _ _ _ _ _ _ _ Hb H)
    as (fuel' & d & s & cls & Hfuel & _ & _ & H').
  injection Hfuel as <-.
  destruct (has_children r && bool_decide (expanded r ≠ JBool false)).
  - eapply (forSomeChildren_keeps_discipline _ _ _ _ _ _ (λ w i n, IH w i n (depth0 + 1)))
      in H' as (_ & _ & Hwf' & Hbal'); [done| |done].
    apply pool_ok_update; [done|]. by apply pool_ok_update.
  - destruct H' as [_ ->]. split; [done | exact (balanced_refl st)].
Qed.

End PoolFacts.

(** As [some_from_inv], for turns that keep [P] on the items of the
    array that satisfy [Q]. *)
Lemma some_from_inv_on {A} (P : state → Prop) (Q : loc → Prop)
    (f : loc → nat → list loc → A → state → option (jsval * A * state)) array :
  (∀ node index a st ret a' st',
      Q node → P st → f node index array a st = Some (ret, a', st') → P st') →
  ∀ rest, Forall Q rest →
  ∀ index a st b a' st',
    P st → some_from f array index rest a st = Some (b, a', st') → P st'.
Proof.
  intros Hf rest HQ. induction HQ as [|c rest Hc _ IH]; intros index a st b a' st' HP H.
  - simpl in H. by simplify_eq.
  - cbn [some_from] in H.
    destruct (f c index array a st) as [[[ret a1] st1]|] eqn:E; [|done].
    cbn [mbind option_bind] in H.
    pose proof (Hf _ _ _ _ _ _ _ Hc HP E) as HP1.
    destruct (truthy ret); [by simplify_eq | eauto].
Qed.

Section PoolBound.

Variable sub : string → attrs → string.

Lemma _getHTML_pool_bound D n :
  ∀ fuel this l index nSiblings depth0 st html st',
    renderable D n l st = true → pool_ok st → pool_wf st →
    _node st !! this = Some l →
    _getHTML sub fuel this index nSiblings depth0 st = Some (html, st') →
    (length (pool st') ≤ length (pool st) `max` (n - 1))%nat.
Proof.
  induction n as [|n IH];
    intros fuel this l index nSiblings depth0 st html st' Hr Hok Hwf Hthis H; [done|].
  apply renderable_inv in Hr as (n' & r & x & [= <-] & Hl & Hx & Hcs).
  assert (bound_record this st = Some (l, r)) as Hb by (by apply bound_record_Some).
  destruct (_getHTML_Some _ _ _ _ _ _ _ _ _ _ _ Hb H)
    as (fuel' & d & s & cls & -> & _ & _ & H').
  destruct (has_children r && bool_decide (expanded r ≠ JBool false));
    [|destruct H' as [_ ->]; simpl; lia].
  set (st2 := update l (set_childrenRendered true) (update l (set_rendered true) st)) in *.
  assert (frame st st2) as F2.
  { eapply frame_trans; apply frame_update;
      [apply rec_le_set_rendered | apply rec_le_set_childrenRendered]. }
  assert (pool_ok st2) as Hok2.
  { unfold st2. apply pool_ok_update; [done|]. by apply pool_ok_update. }
  unfold forSomeChildren in H'.
  assert (bound_record this st2
          = Some (l, set_childrenRendered true (set_rendered true r))) as Hb2.
  { unfold st2. by do 2 apply bound_record_update. }
  rewrite Hb2 in H'. cbn [mbind option_bind] in H'.
  change (children (set_childrenRendered true (set_rendered true r)))
    with (children r) in H'.
  destruct (children r) as [[|c cs]|]; try (simplify_eq; simpl; lia).
  unfold YArray_some in H'.
  match type of H' with context [some_from ?f ?arr 0 ?rest ?a ?s0] =>
    destruct (some_from f arr 0 rest a s0) as [[[b s1] st1]|] eqn:E; [|done] end.
  cbn [mbind option_bind] in H'. simplify_eq.
  eapply (some_from_inv_on
            (λ st0, frame st2 st0 ∧ pool_ok st0 ∧ pool_wf st0 ∧
                    (length (pool st0) ≤ length (pool st) `max` n)%nat)
            (λ c, renderable D n c st = true)) in E
    as (_ & _ & _ & Hlen); [simpl; by rewrite Nat.sub_0_r| |exact Hcs|].
  2: { split; [apply frame_refl|]. split; [done|]. split; [done|]. simpl. lia. }
  intros node i a st0 ret a' st0' Hnode (F0 & Hok0 & Hwf0 & Hlen0) Hv.
  unfold visit in Hv.
  destruct (_poolFetch node st0) as [[child st3]|] eqn:Ef; [|done].
  cbn [mbind option_bind] in Hv.
  match type of Hv with context [append_markup ?ren child i ?arr a st3] =>
    destruct (append_markup ren child i arr a st3) as [[[ret' a1] st4]|] eqn:Ea;
      [|done] end.
  cbn [mbind option_bind] in Hv. simplify_eq.
  apply append_markup_Some in Ea as (h & Er & _ & _).
  destruct (pool_ok_poolFetch _ _ _ _ Hok0 Ef) as [Hok3 Hchild].
  destruct (fetch_return_bracket _ _ _ _ Hok0 Hwf0 Ef) as [Hwf3 Hret].
  pose proof (frame_poolFetch _ _ _ _ Ef) as F3.
  destruct (_getHTML_keeps_discipline sub _ _ _ _ _ _ _ _ Hok3 Hwf3 Er)
    as (F4 & Hok4 & Hwf4 & Hbal4).
  assert (renderable D n node st3 = true) as Hnode3.
  { rewrite (renderable_frame _ _ _ _ _ F3), (renderable_frame _ _ _ _ _ F0),
      (renderable_frame _ _ _ _ _ F2). done. }
  pose proof (IH _ _ _ _ _ _ _ _ _ Hnode3 Hok3 Hwf3 Hchild Er) as Hlen4.
  destruct (Hret st4 F4 Hok4 Hwf4 Hbal4) as (Hwf5 & _ & Hlen5).
  specialize (Hlen5 _ Hlen4).
  assert (n ≠ 0%nat) as Hn by (intros ->; done).
  split; [|split; [by apply pool_ok_poolReturn|split; [done|lia]]].
  eapply frame_trans; [exact F0|]. eapply frame_trans; [exact F3|].
  eapply frame_trans; [exact F4 | apply frame_poolReturn].
Qed.

(** X1: rendering gives back every instance it takes.  When [_getHTML]
    returns, the instances that were bound are bound to the same records,
    the free list holds what it held plus the instances made during the
    call, each once and unbound.  Where the tree under the record can be
    rendered, the call returns. *)
Theorem X1_getHTML_returns_instances this index nSiblings depth0 st l r :
  bound_record this st = Some (l, r) →
  pool_ok st → pool_wf st →
  (∀ fuel html st',
     _getHTML sub fuel this index nSiblings depth0 st = Some (html, st') →
     _node st' = _node st ∧
     pool st' ≡ₚ seq (created st) (created st' - created st) ++ pool st ∧
     pool_wf st') ∧
  (∀ D n fuel, renderable D n l st = true → (D + n ≤ fuel)%nat →
               is_Some (_getHTML sub fuel this index nSiblings depth0 st)).
Proof.
  intros Hb Hok Hwf. split.
  - intros fuel html st' H.
    destruct (_getHTML_keeps_discipline sub _ _ _ _ _ _ _ _ Hok Hwf H)
      as (_ & _ & Hwf' & Hn & _ & Hp).
    done.
  - intros D n fuel Hr Hfuel. apply bound_record_Some in Hb as [Hw _].
    destruct (_getHTML_total sub D n fuel this l index nSiblings depth0 st)
      as (html & st' & ->); eauto.
Qed.

(** X2: the instances made by rendering are bounded by the depth of the
    tree, not by its size.  Rendering a tree that is [n] records deep
    returns with a free list no longer than the longer of what it was and
    [n - 1], having made at most as many instances as the free list was
    short of [n - 1]. *)
Theorem X2_getHTML_makes_few_instances this index nSiblings depth0 st l r D n fuel :
  bound_record this st = Some (l, r) →
  pool_ok st → pool_wf st →
  renderable D n l st = true → (D + n ≤ fuel)%nat →
  ∃ html st',
    _getHTML sub fuel this index nSiblings depth0 st = Some (html, st') ∧
    (length (pool st') ≤ length (pool st) `max` (n - 1))%nat ∧
    (created st' - created st ≤ (n - 1) - length (pool st))%nat.
Proof.
  intros Hb Hok Hwf Hr Hfuel. pose proof Hb as [Hw _]%bound_record_Some.
  destruct (_getHTML_total sub D n fuel this l index nSiblings depth0 st)
    as (html & st' & H); eauto.
  exists html, st'. split; [done|].
  pose proof (_getHTML_pool_bound D n _ _ _ _ _ _ _ _ _ Hr Hok Hwf Hw H) as Hlen.
  split; [done|].
  destruct (_getHTML_keeps_discipline sub _ _ _ _ _ _ _ _ Hok Hwf H)
    as (_ & _ & _ & _ & Hc & Hp).
  apply Permutation_length in Hp. rewrite length_app, length_seq in Hp. lia.
Qed.

End PoolBound.

Lemma pool_wf_xyz loader : pool_wf (xyz_state loader).
Proof.
  split; [apply NoDup_nil_2|]. split; [apply Forall_nil_2|].
  destruct loader; compute_done.
Qed.

Lemma X1_getHTML_returns_instances_witness :
  ∃ html st', _getHTML plain_sub 5 3%nat 0 1 0 (xyz_state false) = Some (html, st') ∧
              _node st' = _node (xyz_state false) ∧ pool st' = [5%nat].
Proof.
  destruct (X1_getHTML_returns_instances plain_sub 3%nat 0 1 0 (xyz_state false) 1%nat
              (Record (Some (Named "top")) (Some "top") None JUndefined false
                 (Some [2%nat; 3%nat; 4%nat]) (Some 0%nat) false false None)
              eq_refl (pool_ok_xyz false) (pool_wf_xyz false)) as [Hkeep Htotal].
  destruct (Htotal 3%nat 2%nat 5%nat eq_refl (le_n 5)) as [[html st'] H].
  destruct (Hkeep 5%nat html st' H) as (Hn & _ & _).
  exists html, st'. split; [exact H|]. split; [exact Hn|].
  vm_compute in H. by simplify_eq.
Defined.

Lemma X2_getHTML_makes_few_instances_witness :
  ∃ html st', _getHTML plain_sub 5 3%nat 0 1 0 (xyz_state false) = Some (html, st') ∧
              (created st' - 5 ≤ 1)%nat.
Proof.
  destruct (X2_getHTML_makes_few_instances plain_sub 3%nat 0 1 0 (xyz_state false) 1%nat
              (Record (Some (Named "top")) (Some "top") None JUndefined false
                 (Some [2%nat; 3%nat; 4%nat]) (Some 0%nat) false false None)
              3%nat 2%nat 5%nat
              eq_refl (pool_ok_xyz false) (pool_wf_xyz false) eq_refl (le_n 5))
    as (html & st' & H & _ & Hmade).
  exists html, st'. split; [exact H | exact Hmade].
Defined.

(** ** Setting and reading [expanded] *)

Lemma same_shape_refl st : same_shape st st.
Proof. intros l. by destruct (nodes st !! l); constructor. Qed.

Lemma same_shape_trans st1 st2 st3 :
  same_shape st1 st2 → same_shape st2 st3 → same_shape st1 st3.
Proof.
  intros H1 H2 l. specialize (H1 l). specialize (H2 l).
  destruct H1 as [r1 r2 [Hc Hp]|]; inversion H2 as [? r3 [Hc' Hp'] |]; subst;
    constructor. split; congruence.
Qed.

Section SetterFacts.

Variable sub : string → attrs → string.

(** [_renderChildren], taken apart. *)
Lemma _renderChildren_inv fuel this st st' l r :
  bound_record this st = Some (l, r) →
  _renderChildren sub fuel this st = Some st' →
  ∃ d s st1,
    depth fuel this st = Some d ∧
    forSomeChildren
      (append_markup (λ fwNode index nSiblings,
         _getHTML sub fuel fwNode index nSiblings (d + 1)))
      this "" (update l (set_childrenRendered true) st) = Some (s, st1) ∧
    frame (update l (set_childrenRendered true) st) st1 ∧
    st' = emit (SetContent (ChildrenOf (id r)) s) st1.
Proof.
  intros Hb H. unfold _renderChildren in H. rewrite Hb in H.
  cbn [mbind option_bind] in H.
  destruct (depth fuel this st) as [d|]; [|done]. cbn [mbind option_bind] in H.
  match type of H with context [forSomeChildren ?fn ?t ?a ?s] =>
    destruct (forSomeChildren fn t a s) as [[s1 st1]|] eqn:E; [|done] end.
  cbn [mbind option_bind] in H.
  assert (frame (update l (set_childrenRendered true) st) st1) as F.
  { eapply (forSomeChildren_inv (frame (update l (set_childrenRendered true) st)));
      [| | | |exact E].
    - intros. eapply frame_trans; [eassumption|]. eapply frame_poolFetch; eauto.
    - intros. eapply frame_trans; [eassumption|]. apply frame_poolReturn.
    - intros child i array a st0 ret a' st0' HP Hc.
      apply append_markup_Some in Hc as (h & E2 & _ & _).
      eapply frame_trans; [eassumption|]. eapply _getHTML_frame; eauto.
    - apply frame_refl. }
  pose proof Hb as [_ Hl]%bound_record_Some.
  assert (nodes (update l (set_childrenRendered true) st) !! l
          = Some (set_childrenRendered true r)) as Hl0 by (by rewrite lookup_update, Hl).
  destruct (frame_lookup _ _ _ _ F Hl0) as (r1 & Hl1 & Hle).
  rewrite Hl1 in H. cbn [mbind option_bind] in H. simplify_eq.
  apply rec_le_fields in Hle as (-> & _). exists d, s1, st1. done.
Qed.

Lemma _renderChildren_keeps_discipline fuel this st st' :
  pool_ok st → pool_wf st →
  _renderChildren sub fuel this st = Some st' →
  pool_ok st' ∧ pool_wf st' ∧ balanced st st' ∧ same_shape st st'.
Proof.
  intros Hok Hwf H.
  destruct (bound_record this st) as [[l r]|] eqn:Hb;
    [|by unfold _renderChildren in H; rewrite Hb in H].
  destruct (_renderChildren_inv _ _ _ _ _ _ Hb H) as (d & s & st1 & _ & E & F & ->).
  eapply (forSomeChildren_keeps_discipline _ _ _ _ _ _
            (λ w i n, _getHTML_keeps_discipline sub fuel w i n (d + 1)))
    in E as (_ & Hok1 & Hwf1 & Hbal1); [|by apply pool_ok_update|done].
  split; [exact Hok1|]. split; [exact Hwf1|]. split; [exact Hbal1|].
  eapply same_shape_trans; [|exact (same_shape_frame _ _ F)].
  by apply same_shape_update.
Qed.

(** What every returning run of [_expandedSetter] keeps and writes. *)
Lemma _expandedSetter_keeps fuel this v st st' l r :
  bound_record this st = Some (l, r) →
  pool_ok st → pool_wf st →
  _expandedSetter sub fuel this v st = Some st' →
  pool_ok st' ∧ pool_wf st' ∧ balanced st st' ∧ same_shape st st' ∧
  (expanded <$> nodes st' !! l) = Some (JBool (truthy v)).
Proof.
  intros Hb Hok Hwf H. pose proof Hb as [Hw Hl]%bound_record_Some.
  set (st0 := update l (set_expanded (JBool (truthy v))) st).
  assert ((expanded <$> nodes st0 !! l) = Some (JBool (truthy v))) as H0.
  { unfold st0. by rewrite lookup_update, Hl. }
  assert (pool_ok st0) as Hok0 by (unfold st0; by apply pool_ok_update).
  assert (pool_wf st0) as Hwf0 by done.
  assert (balanced st st0) as Hbal0 by exact (balanced_refl st).
  assert (same_shape st st0) as Hsh0 by (unfold st0; by apply same_shape_update).
  rewrite (_expandedSetter_cases sub fuel this v st l r Hb) in H. fold st0 in H.
  destruct (eligible (dynamicLoader st) r); [by simplify_eq|].
  destruct (has_children r); [|by simplify_eq].
  destruct (truthy v) in H; [|by simplify_eq].
  destruct (negb (_childrenRendered r));
    [|cbn [mbind option_bind] in H; by simplify_eq].
  destruct (_renderChildren sub fuel this st0) as [st1|] eqn:Hr; [|done].
  cbn [mbind option_bind] in H. simplify_eq.
  destruct (_renderChildren_keeps_discipline _ _ _ _ Hok0 Hwf0 Hr)
    as (Hok1 & Hwf1 & Hbal1 & Hsh1).
  assert (bound_record this st0 = Some (l, set_expanded (JBool (truthy v)) r)) as Hb0
    by (by apply bound_record_update).
  destruct (_renderChildren_Some sub _ _ _ _ _ _ Hb0 Hr) as (s & st2 & F & ->).
  split; [exact Hok1|]. split; [exact Hwf1|]. split; [exact Hbal1|].
  split; [exact (same_shape_trans _ _ _ Hsh0 Hsh1)|].
  simpl. apply bound_record_Some in Hb0 as [_ Hl0].
  destruct (frame_lookup _ _ _ _ F Hl0) as (r2 & -> & Hle).
  apply rec_le_fields in Hle as (_ & _ & _ & He & _). simpl. by rewrite He.
Qed.

Lemma _expandedSetter_total D n fuel this v st l :
  renderable D (S n) l st = true → pool_ok st → _node st !! this = Some l →
  (D + n ≤ fuel)%nat →
  is_Some (_expandedSetter sub fuel this v st).
Proof.
  intros Hr Hok Hw Hfuel.
  destruct (renderable_inv _ _ _ _ Hr) as (_ & r & _ & _ & Hl & _ & _).
  assert (bound_record this st = Some (l, r)) as Hb by (by apply bound_record_Some).
  rewrite (_expandedSetter_cases sub fuel this v st l r Hb).
  set (st0 := update l (set_expanded (JBool (truthy v))) st).
  destruct (eligible (dynamicLoader st) r); [eauto|].
  destruct (has_children r); [|eauto].
  destruct (truthy v) eqn:Hv; [|eauto].
  destruct (negb (_childrenRendered r)); [|cbn [mbind option_bind]; eauto].
  assert (same_shape st st0) as Hsh by (unfold st0; by apply same_shape_update).
  assert (renderable D (S n) l st0 = true) as Hr0
    by (by rewrite (renderable_shape _ _ _ _ Hsh)).
  assert (pool_ok st0) as Hok0 by (unfold st0; by apply pool_ok_update).
  destruct (_renderChildren_total sub D n fuel this st0 l Hr0 Hok0 Hw Hfuel)
    as [st1 ->].
  cbn [mbind option_bind]. eauto.
Qed.

(** X3: what is set is what is read.  When [_expandedSetter] returns,
    the instance is still bound to its record and [_expandedGetter] on it
    reads the value assigned, coerced to a boolean.  Where the tree under
    the record can be rendered, the setter returns. *)
Theorem X3_get_after_set this v st l r :
  bound_record this st = Some (l, r) →
  pool_ok st → pool_wf st →
  (∀ fuel st', _expandedSetter sub fuel this v st = Some st' →
               _node st' !! this = Some l ∧
               _expandedGetter this st' = Some (truthy v)) ∧
  (∀ D n fuel, renderable D (S n) l st = true → (D + n ≤ fuel)%nat →
               is_Some (_expandedSetter sub fuel this v st)).
Proof.
  intros Hb Hok Hwf. pose proof Hb as [Hw Hl]%bound_record_Some. split.
  - intros fuel st' H.
    destruct (_expandedSetter_keeps _ _ _ _ _ _ _ Hb Hok Hwf H)
      as (_ & _ & (Hn & _) & _ & He).
    assert (_node st' !! this = Some l) as Hw' by (by rewrite Hn).
    split; [done|]. unfold _expandedGetter, bound_record. rewrite Hw'.
    cbn [mbind option_bind].
    destruct (nodes st' !! l) as [r'|]; [|done]. simpl in He. injection He as He.
    cbn [mbind option_bind]. rewrite He. by destruct (truthy v).
  - intros D n fuel Hr Hfuel. by eapply _expandedSetter_total.
Qed.

(** X4: [toggle] flips what [expanded] reads and gives back the instance
    it was called on; two toggles in a row bring the reading back.  Where
    the tree under the record can be rendered, both toggles return. *)
Theorem X4_toggle_twice this st l r :
  bound_record this st = Some (l, r) →
  pool_ok st → pool_wf st →
  (∀ fuel w1 st1,
     toggle sub fuel this st = Some (w1, st1) →
     w1 = this ∧
     _expandedGetter this st1 = negb <$> _expandedGetter this st ∧
     ∀ fuel' w2 st2,
       toggle sub fuel' this st1 = Some (w2, st2) →
       w2 = this ∧ _expandedGetter this st2 = _expandedGetter this st) ∧
  (∀ D n fuel, renderable D (S n) l st = true → (D + n ≤ fuel)%nat →
     ∃ st1 st2, toggle sub fuel this st = Some (this, st1) ∧
                toggle sub fuel this st1 = Some (this, st2)).
Proof.
  intros Hb Hok Hwf. pose proof Hb as [Hw Hl]%bound_record_Some.
  assert (∀ fuel st0 l0 r0 w1 st1,
            bound_record this st0 = Some (l0, r0) → pool_ok st0 → pool_wf st0 →
            toggle sub fuel this st0 = Some (w1, st1) →
            w1 = this ∧ pool_ok st1 ∧ pool_wf st1 ∧ same_shape st0 st1 ∧
            (∃ r1, bound_record this st1 = Some (l0, r1)) ∧
            _expandedGetter this st1 = negb <$> _expandedGetter this st0) as Hone.
  { intros fuel st0 l0 r0 w1 st1 Hb0 Hok0 Hwf0 H. unfold toggle in H.
    assert (_expandedGetter this st0 = Some (bool_decide (expanded r0 ≠ JBool false)))
      as He by (unfold _expandedGetter; by rewrite Hb0).
    rewrite He in H. cbn [mbind option_bind] in H.
    destruct (_expandedSetter sub fuel this _ st0) as [stx|] eqn:Hs; [|done].
    cbn [mbind option_bind] in H. injection H as E1 E2. subst w1 stx.
    split; [done|].
    destruct (_expandedSetter_keeps _ _ _ _ _ _ _ Hb0 Hok0 Hwf0 Hs)
      as (Hok1 & Hwf1 & (Hn & _) & Hsh & Hfield).
    split; [done|]. split; [done|]. split; [done|].
    apply bound_record_Some in Hb0 as [Hw0 _].
    destruct (nodes st1 !! l0) as [r1|] eqn:Hl1; [|done]. simpl in Hfield.
    injection Hfield as Hfield.
    assert (bound_record this st1 = Some (l0, r1)) as Hb1.
    { apply bound_record_Some. by rewrite Hn. }
    split; [eauto|]. rewrite He. unfold _expandedGetter. rewrite Hb1.
    cbn [mbind option_bind fmap option_fmap option_map]. rewrite Hfield. simpl.
    by destruct (bool_decide (expanded r0 ≠ JBool false)). }
  split.
  - intros fuel w1 st1 H1.
    destruct (Hone _ _ _ _ _ _ Hb Hok Hwf H1) as (E1 & Hok1 & Hwf1 & _ & [r1 Hb1] & He1).
    split; [done|]. split; [done|]. intros fuel' w2 st2 H2.
    destruct (Hone _ _ _ _ _ _ Hb1 Hok1 Hwf1 H2) as (E2 & _ & _ & _ & _ & He2).
    split; [done|]. rewrite He2, He1.
    unfold _expandedGetter. rewrite Hb. cbn [mbind option_bind fmap option_fmap option_map].
    by rewrite negb_involutive.
  - intros D n fuel Hr Hfuel.
    assert (∀ st0 r0, bound_record this st0 = Some (l, r0) → pool_ok st0 →
              renderable D (S n) l st0 = true →
              ∃ st1, toggle sub fuel this st0 = Some (this, st1)) as Htot.
    { intros st0 r0 Hb0 Hok0 Hr0. unfold toggle, _expandedGetter. rewrite Hb0.
      cbn [mbind option_bind]. apply bound_record_Some in Hb0 as [Hw0 _].
      destruct (_expandedSetter_total D n fuel this
                  (JBool (negb (bool_decide (expanded r0 ≠ JBool false)))) st0 l
                  Hr0 Hok0 Hw0 Hfuel) as [st1 ->].
      cbn [mbind option_bind]. eauto. }
    destruct (Htot st r Hb Hok Hr) as [st1 H1].
    destruct (Hone _ _ _ _ _ _ Hb Hok Hwf H1) as (_ & Hok1 & _ & Hsh & [r1 Hb1] & _).
    destruct (Htot st1 r1 Hb1 Hok1) as [st2 H2];
      [by rewrite (renderable_shape _ _ _ _ Hsh)|].
    eauto.
Qed.


End SetterFacts.

(** ** Going up *)

Lemma depth_loop_shift fuel :
  ∀ count k l st,
    depth_loop fuel (count + k) l st = (λ x, x + k) <$> depth_loop fuel count l st.
Proof.
  induction fuel as [|fuel IH]; intros count k l st; [done|].
  cbn [depth_loop]. destruct (nodes st !! l) as [r|]; [|done].
  cbn [mbind option_bind]. destruct (_parent r) as [p|]; [|done].
  replace (count + k + 1) with (count + 1 + k) by lia. apply IH.
Qed.

(** X6: [getParent] on a node with a parent gives an instance bound to
    the parent record and leaves the tree as it was; the [depth] of that
    instance is the depth of the node less one. *)
Theorem X6_getParent_is_one_up this st l r p :
  bound_record this st = Some (l, r) →
  _parent r = Some p → is_Some (nodes st !! p) → pool_ok st →
  ∃ w st',
    getParent this st = Some (Some w, st') ∧
    _node st' !! w = Some p ∧
    nodes st' = nodes st ∧
    ∀ fuel d, depth (S fuel) this st = Some d → depth fuel w st' = Some (d - 1).
Proof.
  intros Hb Hp Hsome Hok. pose proof Hb as [Hw Hl]%bound_record_Some.
  destruct (_poolFetch_total p st Hsome) as [[w st'] Hf].
  exists w, st'. destruct (pool_ok_poolFetch _ _ _ _ Hok Hf) as [_ Hbound].
  assert (nodes st' = nodes st) as Hnodes.
  { unfold _poolFetch in Hf. destruct (nodes st !! p) as [rp|]; [|done].
    cbn [mbind option_bind] in Hf. destruct (_held rp); [by simplify_eq|].
    by destruct (pool st); simplify_eq. }
  split; [unfold getParent; by rewrite Hb; cbn [mbind option_bind]; rewrite Hp, Hf|].
  split; [done|]. split; [done|]. intros fuel d Hd.
  unfold depth in *. rewrite Hw in Hd. rewrite Hbound.
  cbn [mbind option_bind depth_loop] in Hd |- *. rewrite Hl in Hd.
  cbn [mbind option_bind] in Hd. rewrite Hp in Hd.
  change (0 + 1) with (0 + 1)%Z in Hd.
  rewrite (depth_loop_shift fuel 0 1 p st) in Hd.
  assert (depth_loop fuel 0 p st' = depth_loop fuel 0 p st) as ->.
  { apply depth_loop_shape. intros l0. rewrite Hnodes.
    by destruct (nodes st !! l0); constructor. }
  destruct (depth_loop fuel 0 p st) as [x|]; [|done].
  cbn [fmap option_fmap option_map mbind option_bind] in Hd |- *.
  injection Hd as <-. f_equal. lia.
Qed.

Lemma X6_getParent_is_one_up_witness :
  ∃ w st', getParent 1%nat (xyz_state false) = Some (Some w, st') ∧
           depth 3 1%nat (xyz_state false) = Some 1 ∧ depth 2 w st' = Some 0.
Proof.
  destruct (X6_getParent_is_one_up 1%nat (xyz_state false) 3%nat (leaf_record "y" 1%nat)
              1%nat eq_refl eq_refl (mk_is_Some _ _ eq_refl) (pool_ok_xyz false))
    as (w & st' & Hg & _ & _ & Hd).
  exists w, st'. split; [exact Hg|]. split; [reflexivity|].
  exact (Hd 2%nat 1 eq_refl).
Defined.

(** ** What a callback sees *)

Lemma numbered_cons i c cs : numbered i (c :: cs) = (i, Some c) :: numbered (S i) cs.
Proof.
  unfold numbered. simpl. rewrite Nat.add_0_r. f_equal.
  apply imap_ext. intros k x _. simpl. f_equal. lia.
Qed.

Lemma visit_in_order_note_call stop siblings rest :
  ∀ index seen st,
    (index ≤ stop)%nat → pool_ok st →
    Forall (λ c, is_Some (nodes st !! c)) rest →
    ∃ st', visit_in_order (note_call stop) siblings index rest seen st
           = Some (seen ++ numbered index (take (S stop - index) rest), st') ∧
           nodes st' = nodes st.
Proof.
  induction rest as [|c rest IH]; intros index seen st Hle Hok Hrest.
  - exists st. simpl. rewrite take_nil. unfold numbered. simpl. by rewrite app_nil_r.
  - apply Forall_cons in Hrest as [Hc Hrest]. cbn [visit_in_order].
    destruct (_poolFetch_total c st Hc) as [[child st1] Hf]. rewrite Hf.
    cbn [mbind option_bind].
    destruct (pool_ok_poolFetch _ _ _ _ Hok Hf) as [Hok1 Hbound].
    pose proof (frame_poolFetch _ _ _ _ Hf) as F1.
    pose proof (frame_poolReturn child st1) as F2.
    change (note_call stop child index siblings seen st1)
      with (Some (JBool (bool_decide (index = stop)),
                  seen ++ [(index, _node st1 !! child)], st1)).
    cbn [mbind option_bind]. rewrite Hbound. simpl truthy.
    replace (S stop - index)%nat with (S (stop - index)) by lia.
    cbn [take]. rewrite numbered_cons.
    assert (∀ l0, nodes (_poolReturn child st1) !! l0 = None ↔ nodes st !! l0 = None)
      as Hsame.
    { intros l0. pose proof (frame_nodes _ _ (frame_trans _ _ _ F1 F2) l0) as N.
      inversion N; split; congruence. }
    assert (nodes (_poolReturn child st1) = nodes st) as Hnodes.
    { unfold _poolReturn. destruct (is_held child st1); simpl;
        unfold _poolFetch in Hf; destruct (nodes st !! c) as [rc|]; try done;
        cbn [mbind option_bind] in Hf; destruct (_held rc); try (by simplify_eq);
        by destruct (pool st); simplify_eq. }
    case_bool_decide as Hstop.
    + subst index. rewrite Nat.sub_diag, take_0. eexists. split; [reflexivity|done].
    + destruct (IH (S index) (seen ++ [(index, Some c)]) (_poolReturn child st1))
        as (st' & -> & Hn'); [lia | by apply pool_ok_poolReturn | by rewrite Hnodes |].
      exists st'. replace (S stop - S index)%nat with (stop - index)%nat by lia.
      rewrite <- (assoc_L (++)). split; [done|]. by rewrite Hn', Hnodes.
Qed.

(** X7: a callback that asks to stop at index [stop] is called on the
    first [stop + 1] children and on no other, in their stored order,
    each time with an instance that it finds bound to that child; the
    records are left as they were. *)
Theorem X7_callback_sees_children_in_order this st l r cs stop :
  bound_record this st = Some (l, r) →
  children r = Some cs →
  Forall (λ c, is_Some (nodes st !! c)) cs →
  pool_ok st →
  ∃ st', forSomeChildren (note_call stop) this [] st
         = Some (numbered 0 (take (S stop) cs), st') ∧
         nodes st' = nodes st.
Proof.
  intros Hb Hcs Hall Hok.
  rewrite (forSomeChildren_visit _ _ _ _ _ _ Hb), Hcs. simpl default.
  destruct (visit_in_order_note_call stop cs cs 0 [] st) as (st' & -> & Hn);
    [lia | done | done |].
  exists st'. by rewrite Nat.sub_0_r.
Qed.

Lemma X7_callback_sees_children_in_order_witness :
  ∃ st', forSomeChildren (note_call 1) 3%nat [] (xyz_state false)
         = Some ([(0%nat, Some 2%nat); (1%nat, Some 3%nat)], st').
Proof.
  destruct (X7_callback_sees_children_in_order 3%nat (xyz_state false) 1%nat
              (Record (Some (Named "top")) (Some "top") None JUndefined false
                 (Some [2%nat; 3%nat; 4%nat]) (Some 0%nat) false false None)
              [2%nat; 3%nat; 4%nat] 1%nat eq_refl eq_refl)
    as (st' & H & _).
  - repeat constructor; exact (mk_is_Some _ _ eq_refl).
  - exact (pool_ok_xyz false).
  - exists st'. exact H.
Defined.

(** ** Letting go *)

(** X8: [release] does not ask who holds.  When an instance holds a
    record, [release] on another instance bound to the same record takes
    the hold away all the same: [_held] is null afterwards, and the
    instance that held is no longer kept from the free list. *)
Theorem X8_release_unpins_for_anyone w1 w2 st l r :
  bound_record w1 st = Some (l, r) →
  _node st !! w2 = Some l → w1 ≠ w2 →
  ∃ st1 st2,
    hold w2 st = Some (w2, st1) ∧
    (_held <$> nodes st1 !! l) = Some (Some w2) ∧
    release w1 st1 = Some (w1, st2) ∧
    (_held <$> nodes st2 !! l) = Some None ∧
    _node st2 !! w2 = Some l ∧
    is_held w2 st2 = false.
Proof.
  intros Hb Hw2 Hne. pose proof Hb as [Hw1 Hl]%bound_record_Some.
  assert (bound_record w2 st = Some (l, r)) as Hb2 by (by apply bound_record_Some).
  set (st1 := update l (set_held (Some w2)) st).
  assert (bound_record w1 st1 = Some (l, set_held (Some w2) r)) as Hb1
    by (by apply bound_record_update).
  set (st1' := update l (set_held None) st1).
  assert (nodes st1' !! l = Some (set_held None (set_held (Some w2) r))) as Hl1'.
  { unfold st1', st1. by rewrite !lookup_update, Hl. }
  assert (is_held w1 st1' = false) as Hfree.
  { unfold is_held, bound_record. simpl. rewrite Hw1. cbn [mbind option_bind].
    unfold st1', st1 in Hl1'. simpl in Hl1'. rewrite Hl1'. done. }
  exists st1, (_poolReturn w1 st1').
  split; [unfold hold; by rewrite Hb2|].
  split; [unfold st1; by rewrite lookup_update, Hl|].
  split; [unfold release; by rewrite Hb1|].
  unfold _poolReturn. rewrite Hfree. simpl.
  unfold st1', st1 in Hl1'. simpl in Hl1'.
  split; [by rewrite Hl1'|]. split; [by rewrite lookup_delete_ne|].
  unfold is_held, bound_record. simpl. rewrite lookup_delete_ne by done.
  rewrite Hw2. cbn [mbind option_bind]. rewrite Hl1'. done.
Qed.

Lemma X8_release_unpins_for_anyone_witness :
  ∃ st1 st2, hold 7%nat two_on_y = Some (7%nat, st1) ∧
             release 1%nat st1 = Some (1%nat, st2) ∧
             (_held <$> nodes st2 !! 3%nat) = Some None.
Proof.
  destruct (X8_release_unpins_for_anyone 1%nat 7%nat two_on_y
              3%nat (leaf_record "y" 1%nat) eq_refl eq_refl)
    as (st1 & st2 & Hh & _ & Hr & Hn & _); [lia|].
  exists st1, st2. split; [exact Hh|]. split; [exact Hr | exact Hn].
Defined.

(** ** The arguments and the classes of [_getHTML] *)



Section ArgumentsAndClasses.

Variable sub : string → attrs → string.


(** The attribute object that [_getHTML] hands to the template. *)
Lemma _getHTML_classes fuel this index nSiblings depth0 st html st' l r :
  bound_record this st = Some (l, r) →
  _getHTML sub fuel this index nSiblings depth0 st = Some (html, st') →
  ∃ d s,
    html = sub (resolve_template r)
             (Attrs (id r) (default "" (label r)) (template r) d
                (bool_decide (expanded r ≠ JBool false)) s
                ([CNAME_NODE; state_class (dynamicLoader st) r]
                 ++ (if bool_decide (index = 0) then [CNAME_FIRSTCHILD] else [])
                 ++ (if bool_decide (index = nSiblings - 1) then [CNAME_LASTCHILD] else []))
                (Some CNAME_CHILDREN)).
Proof.
  intros Hb H. destruct fuel as [|fuel']; [done|]. cbn [_getHTML] in H.
  rewrite Hb in H. cbn [mbind option_bind] in H.
  destruct (getAttrs fuel' this st) as [a|] eqn:Ea; [|done].
  cbn [mbind option_bind] in H.
  destruct (getAttrs_Some _ _ _ _ _ _ Hb Ea) as (d & Hd & ->). simpl in H.
  unfold state_class. change (dynamicLoader (update l (set_rendered true) st))
    with (dynamicLoader st) in H.
  destruct (has_children r).
  - destruct (bool_decide (expanded r ≠ JBool false)).
    + match type of H with context [forSomeChildren ?fn ?t ?a ?s] =>
        destruct (forSomeChildren fn t a s) as [[s1 st1]|] eqn:E; [|done] end.
      cbn [mbind option_bind] in H. simplify_eq. exists d, s1.
      by repeat case_bool_decide.
    + cbn [mbind option_bind] in H. simplify_eq. exists d, "".
      by repeat case_bool_decide.
  - destruct (dynamicLoader st && negb (isLeaf r));
      cbn [mbind option_bind] in H; simplify_eq; exists d, "";
      by repeat case_bool_decide.
Qed.

(** The requests that a toggle makes of the page and of the loader. *)
Lemma toggle_events fuel w st l r w' st' :
  bound_record w st = Some (l, r) →
  toggle sub fuel w st = Some (w', st') →
  ∃ evs, trace st' = trace st ++ evs ∧
         ∀ e sel old, e ∈ evs → swapped_from e = Some (sel, old) →
                      sel = ById (id r) ∧ old = state_class (dynamicLoader st) r.
Proof.
  intros Hb H. unfold toggle, _expandedGetter in H. rewrite Hb in H.
  cbn [mbind option_bind] in H.
  destruct (_expandedSetter sub fuel w _ st) as [stx|] eqn:Hs; [|done].
  cbn [mbind option_bind] in H. injection H as _ <-.
  rewrite (_expandedSetter_cases sub fuel w _ st l r Hb) in Hs.
  unfold state_class, eligible in *. simpl truthy in Hs.
  set (st0 := update l _ st) in Hs.
  destruct (has_children r) eqn:Hhas.
  - rewrite andb_false_r in Hs. cbn [negb] in Hs.
    destruct (bool_decide (expanded r ≠ JBool false)) eqn:He; cbn [negb] in Hs.
    + simplify_eq. eexists [_]. split; [done|].
      intros e sel old ->%list_elem_of_singleton [= <- <-]. done.
    + destruct (negb (_childrenRendered r)); cbn [mbind option_bind] in Hs.
      * destruct (_renderChildren sub fuel w st0) as [st1|] eqn:Hr; [|done].
        cbn [mbind option_bind] in Hs. simplify_eq.
        assert (bound_record w st0 = Some (l, set_expanded (JBool true) r)) as Hb0
          by (by apply bound_record_update).
        destruct (_renderChildren_Some sub _ _ _ _ _ _ Hb0 Hr) as (s & st2 & F & ->).
        eexists [_; _]. split.
        { simpl. rewrite (frame_trace _ _ F). simpl. by rewrite <- (assoc_L (++)). }
        intros e sel old Hin Hsw.
        apply elem_of_cons in Hin as [-> | ->%list_elem_of_singleton]; [done|].
        by injection Hsw as <- <-.
      * simplify_eq. eexists [_]. split; [done|].
        intros e sel old ->%list_elem_of_singleton [= <- <-]. done.
  - rewrite andb_true_r in Hs.
    destruct (dynamicLoader st && negb (isLeaf r)); simplify_eq.
    + eexists [_; _]. split; [simpl; by rewrite <- (assoc_L (++))|].
      intros e sel old Hin Hsw.
      apply elem_of_cons in Hin as [-> | ->%list_elem_of_singleton]; [|done].
      by injection Hsw as <- <-.
    + exists []. split; [simpl; by rewrite app_nil_r|].
      intros e sel old Hin. by apply elem_of_nil in Hin.
Qed.

(** X10: a toggle swaps away the class that was rendered.  After
    [_getHTML] has returned on a record, every class swap that a later
    [toggle] asks for, through any instance bound to that record, is on
    the element of the record and takes away the state class that the
    markup carries in its class list.  Where the tree under the record
    can be rendered, [_getHTML] returns. *)
Theorem X10_toggle_swaps_the_rendered_class this index nSiblings depth0 st l r :
  bound_record this st = Some (l, r) →
  (∀ fuel html st1 fuel' w w' st2,
     _getHTML sub fuel this index nSiblings depth0 st = Some (html, st1) →
     _node st1 !! w = Some l →
     toggle sub fuel' w st1 = Some (w', st2) →
     ∃ a evs,
       html = sub (resolve_template r) a ∧
       attr_cname_node a !! 1%nat = Some (state_class (dynamicLoader st) r) ∧
       trace st2 = trace st1 ++ evs ∧
       ∀ e sel old, e ∈ evs → swapped_from e = Some (sel, old) →
                    sel = ById (id r) ∧ old = state_class (dynamicLoader st) r) ∧
  (∀ D n fuel, renderable D n l st = true → pool_ok st → (D + n ≤ fuel)%nat →
               is_Some (_getHTML sub fuel this index nSiblings depth0 st)).
Proof.
  intros Hb. split.
  - intros fuel html st1 fuel' w w' st2 H Hw Ht.
    destruct (_getHTML_classes _ _ _ _ _ _ _ _ _ _ Hb H) as (d & s & ->).
    pose proof (_getHTML_frame sub _ _ _ _ _ _ _ _ H) as F.
    pose proof Hb as [_ Hl]%bound_record_Some.
    destruct (frame_lookup _ _ _ _ F Hl) as (r1 & Hl1 & Hle).
    assert (bound_record w st1 = Some (l, r1)) as Hb1 by (by apply bound_record_Some).
    destruct (toggle_events _ _ _ _ _ _ _ Hb1 Ht) as (evs & Htr & Hevs).
    apply rec_le_fields in Hle as (Hid & _ & _ & He & Hleaf & Hch & _).
    assert (state_class (dynamicLoader st1) r1 = state_class (dynamicLoader st) r) as Hsc.
    { unfold state_class, has_children. by rewrite (frame_loader _ _ F), He, Hleaf, Hch. }
    eexists _, evs. split; [reflexivity|]. split; [done|]. split; [done|].
    intros e sel old Hin Hsw. destruct (Hevs e sel old Hin Hsw) as [-> ->].
    by rewrite Hid, Hsc.
  - intros D n fuel Hr Hok Hfuel. apply bound_record_Some in Hb as [Hw _].
    destruct (_getHTML_total sub D n fuel this l index nSiblings depth0 st)
      as (html & st' & ->); eauto.
Qed.

End ArgumentsAndClasses.

Lemma X3_get_after_set_witness :
  ∃ st', _expandedSetter plain_sub 4 3%nat (JNum 1) (xyz_state false) = Some st' ∧
         _expandedGetter 3%nat st' = Some true.
Proof.
  destruct (X3_get_after_set plain_sub 3%nat (JNum 1) (xyz_state false) 1%nat
              (Record (Some (Named "top")) (Some "top") None JUndefined false
                 (Some [2%nat; 3%nat; 4%nat]) (Some 0%nat) false false None)
              eq_refl (pool_ok_xyz false) (pool_wf_xyz false)) as [Hread Htotal].
  destruct (Htotal 3%nat 1%nat 4%nat eq_refl (le_n 4)) as [st' H].
  exists st'. split; [exact H|]. exact (proj2 (Hread 4%nat st' H)).
Defined.

Lemma X4_toggle_twice_witness :
  ∃ st1 st2, toggle plain_sub 4 3%nat (xyz_state false) = Some (3%nat, st1) ∧
             toggle plain_sub 4 3%nat st1 = Some (3%nat, st2) ∧
             _expandedGetter 3%nat st1 = Some false ∧
             _expandedGetter 3%nat st2 = Some true.
Proof.
  destruct (X4_toggle_twice plain_sub 3%nat (xyz_state false) 1%nat
              (Record (Some (Named "top")) (Some "top") None JUndefined false
                 (Some [2%nat; 3%nat; 4%nat]) (Some 0%nat) false false None)
              eq_refl (pool_ok_xyz false) (pool_wf_xyz false)) as [Hflip Htotal].
  destruct (Htotal 3%nat 1%nat 4%nat eq_refl (le_n 4)) as (st1 & st2 & H1 & H2).
  destruct (Hflip 4%nat 3%nat st1 H1) as (_ & He1 & Hback).
  destruct (Hback 4%nat 3%nat st2 H2) as (_ & He2).
  exists st1, st2. split; [exact H1|]. split; [exact H2|].
  split; [exact He1 | exact He2].
Defined.


Lemma X10_toggle_swaps_the_rendered_class_witness :
  ∃ html st1 st2,
    _getHTML plain_sub 5 3%nat 0 1 0 (xyz_state false) = Some (html, st1) ∧
    toggle plain_sub 0 3%nat st1 = Some (3%nat, st2) ∧
    trace st2 = [ReplaceClass (ById (Some (Named "top"))) CNAME_EXPANDED CNAME_COLLAPSED].
Proof.
  destruct (X10_toggle_swaps_the_rendered_class plain_sub 3%nat 0 1 0 (xyz_state false)
              1%nat
              (Record (Some (Named "top")) (Some "top") None JUndefined false
                 (Some [2%nat; 3%nat; 4%nat]) (Some 0%nat) false false None)
              eq_refl) as [_ Htotal].
  destruct (Htotal 3%nat 2%nat 5%nat eq_refl (pool_ok_xyz false) (le_n 5))
    as [[html st1] H].
  exists html, st1. vm_compute in H. injection H as <- <-.
  eexists. split; [reflexivity|]. split; vm_compute; reflexivity.
Defined.

(** ** The markup depends on the records only *)

Lemma same_records_frame st st' : frame st st' → same_records st st'.
Proof.
  intros F. split; [|apply F]. intros l.
  destruct (frame_nodes _ _ F l) as [r r' [E _]|]; by constructor.
Qed.

Lemma same_records_sym st st' : same_records st st' → same_records st' st.
Proof.
  intros [N L]. split; [|done]. intros l. destruct (N l); by constructor.
Qed.

Lemma same_records_trans st1 st2 st3 :
  same_records st1 st2 → same_records st2 st3 → same_records st1 st3.
Proof.
  intros [N1 L1] [N2 L2]. split; [|congruence]. intros l.
  specialize (N1 l). specialize (N2 l).
  destruct N1 as [r1 r2 E1|]; inversion N2; subst; constructor. congruence.
Qed.

Lemma same_records_shape st st' : same_records st st' → same_shape st st'.
Proof.
  intros [N _] l. destruct (N l) as [r r' E|]; constructor.
  split; [apply (f_equal children) in E | apply (f_equal _parent) in E];
    by destruct r, r'.
Qed.

Lemma same_records_lookup st st' l r :
  same_records st st' → nodes st !! l = Some r →
  ∃ r', nodes st' !! l = Some r' ∧ erase_flags r' = erase_flags r.
Proof.
  intros [N _] H. specialize (N l). rewrite H in N. inversion N. eauto.
Qed.

Lemma erase_flags_fields r r' :
  erase_flags r' = erase_flags r →
  id r' = id r ∧ label r' = label r ∧ template r' = template r ∧
  expanded r' = expanded r ∧ isLeaf r' = isLeaf r ∧ children r' = children r.
Proof.
  destruct r, r'. unfold erase_flags. simpl. intros E. injection E. intros.
  by subst.
Qed.

Lemma depth_loop_det fuel fuel' count l st x y :
  depth_loop fuel count l st = Some x → depth_loop fuel' count l st = Some y → x = y.
Proof.
  intros Hx Hy.
  apply (depth_loop_mono _ (fuel `max` fuel')) in Hx; [|lia].
  apply (depth_loop_mono _ (fuel `max` fuel')) in Hy; [|lia]. congruence.
Qed.

Lemma visit_in_order_same render_a render_b siblings :
  (∀ c wa wb i n st_a st_b h_a h_b st_a' st_b',
      same_records st_a st_b → pool_ok st_a → pool_ok st_b →
      _node st_a !! wa = Some c → _node st_b !! wb = Some c →
      render_a wa i n st_a = Some (h_a, st_a') →
      render_b wb i n st_b = Some (h_b, st_b') →
      h_a = h_b ∧ same_records st_a' st_b' ∧ pool_ok st_a' ∧ pool_ok st_b') →
  ∀ rest index s st_a st_b s_a s_b st_a' st_b',
    same_records st_a st_b → pool_ok st_a → pool_ok st_b →
    visit_in_order (append_markup render_a) siblings index rest s st_a = Some (s_a, st_a') →
    visit_in_order (append_markup render_b) siblings index rest s st_b = Some (s_b, st_b') →
    s_a = s_b.
Proof.
  intros Hrender. induction rest as [|c rest IH];
    intros index s st_a st_b s_a s_b st_a' st_b' Hsame Hoka Hokb Ha Hb.
  - simpl in Ha, Hb. by simplify_eq.
  - cbn [visit_in_order] in Ha, Hb.
    destruct (_poolFetch c st_a) as [[wa st_a1]|] eqn:Efa; [|done].
    destruct (_poolFetch c st_b) as [[wb st_b1]|] eqn:Efb; [|done].
    cbn [mbind option_bind] in Ha, Hb.
    destruct (append_markup render_a wa index siblings s st_a1)
      as [[[ra sa1] st_a2]|] eqn:Eaa; [|done].
    destruct (append_markup render_b wb index siblings s st_b1)
      as [[[rb sb1] st_b2]|] eqn:Eab; [|done].
    cbn [mbind option_bind] in Ha, Hb.
    apply append_markup_Some in Eaa as (h_a & Era & -> & ->).
    apply append_markup_Some in Eab as (h_b & Erb & -> & ->).
    simpl in Ha, Hb.
    destruct (pool_ok_poolFetch _ _ _ _ Hoka Efa) as [Hoka1 Hwa].
    destruct (pool_ok_poolFetch _ _ _ _ Hokb Efb) as [Hokb1 Hwb].
    assert (same_records st_a1 st_b1) as Hsame1.
    { eapply same_records_trans;
        [apply same_records_sym, same_records_frame, (frame_poolFetch _ _ _ _ Efa)|].
      eapply same_records_trans; [exact Hsame|].
      apply same_records_frame, (frame_poolFetch _ _ _ _ Efb). }
    destruct (Hrender _ _ _ _ _ _ _ _ _ _ _ Hsame1 Hoka1 Hokb1 Hwa Hwb Era Erb)
      as (-> & Hsame2 & Hoka2 & Hokb2).
    eapply (IH _ _ _ _ _ _ _ _ _ _ _ Ha Hb).
    Unshelve.
    + eapply same_records_trans;
        [apply same_records_sym, same_records_frame, frame_poolReturn|].
      eapply same_records_trans; [exact Hsame2|].
      apply same_records_frame, frame_poolReturn.
    + by apply pool_ok_poolReturn.
    + by apply pool_ok_poolReturn.
Qed.

Section Purity.

Variable sub : string → attrs → string.

(** One call of [_getHTML], taken apart to the last class. *)
Lemma _getHTML_inv fuel this index nSiblings depth0 st html st' l r :
  bound_record this st = Some (l, r) →
  _getHTML sub fuel this index nSiblings depth0 st = Some (html, st') →
  ∃ fuel' d s,
    fuel = S fuel' ∧
    depth_loop fuel' 0 l st = Some (d + 1) ∧
    html = sub (resolve_template r)
             (Attrs (id r) (default "" (label r)) (template r) d
                (bool_decide (expanded r ≠ JBool false)) s
                ([CNAME_NODE; state_class (dynamicLoader st) r]
                 ++ (if bool_decide (index = 0) then [CNAME_FIRSTCHILD] else [])
                 ++ (if bool_decide (index = nSiblings - 1) then [CNAME_LASTCHILD] else []))
                (Some CNAME_CHILDREN)) ∧
    if recurses r
    then forSomeChildren
           (append_markup (λ fwNode index nSiblings,
              _getHTML sub fuel' fwNode index nSiblings (depth0 + 1)))
           this ""
           (update l (set_childrenRendered true) (update l (set_rendered true) st))
         = Some (s, st')
    else s = "".
Proof.
  intros Hb H. destruct fuel as [|fuel']; [done|]. cbn [_getHTML] in H.
  rewrite Hb in H. cbn [mbind option_bind] in H.
  destruct (getAttrs fuel' this st) as [a|] eqn:Ea; [|done].
  cbn [mbind option_bind] in H.
  destruct (getAttrs_Some _ _ _ _ _ _ Hb Ea) as (d & Hd & ->). simpl in H.
  assert (depth_loop fuel' 0 l st = Some (d + 1)) as Hdl.
  { unfold depth in Hd. pose proof Hb as [Hw _]%bound_record_Some.
    rewrite Hw in Hd. cbn [mbind option_bind] in Hd.
    destruct (depth_loop fuel' 0 l st) as [x|]; [|done].
    cbn [mbind option_bind] in Hd. injection Hd as <-. f_equal. lia. }
  unfold state_class, recurses.
  change (dynamicLoader (update l (set_rendered true) st)) with (dynamicLoader st) in H.
  exists fuel', d.
  destruct (has_children r).
  - destruct (bool_decide (expanded r ≠ JBool false)).
    + match type of H with context [forSomeChildren ?fn ?t ?a ?s] =>
        destruct (forSomeChildren fn t a s) as [[s1 st1]|] eqn:E; [|done] end.
      cbn [mbind option_bind] in H. simplify_eq. exists s1.
      by repeat case_bool_decide.
    + cbn [mbind option_bind] in H. simplify_eq. exists "".
      by repeat case_bool_decide.
  - destruct (dynamicLoader st && negb (isLeaf r));
      cbn [mbind option_bind] in H; simplify_eq; exists "";
      by repeat case_bool_decide.
Qed.

Lemma _getHTML_same fuel_a :
  ∀ fuel_b l wa wb index nSiblings d_a d_b st_a st_b h_a h_b st_a' st_b',
    same_records st_a st_b → pool_ok st_a → pool_ok st_b →
    _node st_a !! wa = Some l → _node st_b !! wb = Some l →
    _getHTML sub fuel_a wa index nSiblings d_a st_a = Some (h_a, st_a') →
    _getHTML sub fuel_b wb index nSiblings d_b st_b = Some (h_b, st_b') →
    h_a = h_b.
Proof.
  induction fuel_a as [|fuel_a IH];
    intros fuel_b l wa wb index nSiblings d_a d_b st_a st_b h_a h_b st_a' st_b'
           Hsame Hoka Hokb Hwa Hwb Ha Hb; [done|].
  destruct (nodes st_a !! l) as [r_a|] eqn:Hla;
    [|by cbn [_getHTML] in Ha; unfold bound_record in Ha; rewrite Hwa in Ha;
         cbn [mbind option_bind] in Ha; rewrite Hla in Ha].
  destruct (same_records_lookup _ _ _ _ Hsame Hla) as (r_b & Hlb & Er).
  assert (bound_record wa st_a = Some (l, r_a)) as Hba by (by apply bound_record_Some).
  assert (bound_record wb st_b = Some (l, r_b)) as Hbb by (by apply bound_record_Some).
  destruct (_getHTML_inv _ _ _ _ _ _ _ _ _ _ Hba Ha)
    as (fa & da & sa & Hfa & Hda & -> & Hsa).
  destruct (_getHTML_inv _ _ _ _ _ _ _ _ _ _ Hbb Hb)
    as (fb & db & sb & Hfb & Hdb & -> & Hsb).
  injection Hfa as <-.
  destruct (erase_flags_fields _ _ Er) as (Hid & Hlabel & Htempl & Hexp & Hleaf & Hch).
  rewrite (depth_loop_shape _ _ _ (same_records_shape _ _ Hsame)) in Hdb.
  assert (db = da) as -> by (pose proof (depth_loop_det _ _ _ _ _ _ _ Hda Hdb); lia).
  assert (resolve_template r_b = resolve_template r_a) as ->
    by (unfold resolve_template; by rewrite Htempl).
  assert (state_class (dynamicLoader st_b) r_b = state_class (dynamicLoader st_a) r_a) as ->.
  { unfold state_class, has_children. destruct Hsame as [_ ->].
    by rewrite Hexp, Hleaf, Hch. }
  assert (recurses r_b = recurses r_a) as Hrec
    by (unfold recurses, has_children; by rewrite Hexp, Hch).
  rewrite Hid, Hlabel, Htempl, Hexp. rewrite Hrec in Hsb.
  destruct (recurses r_a); [|by subst].
  set (up := λ st, update l (set_childrenRendered true) (update l (set_rendered true) st)).
  assert (∀ st, frame st (up st)) as Fup.
  { intros st. eapply frame_trans; apply frame_update;
      [apply rec_le_set_rendered | apply rec_le_set_childrenRendered]. }
  assert (∀ st, pool_ok st → pool_ok (up st)) as Hokup.
  { intros st H. unfold up. apply pool_ok_update; [done|]. by apply pool_ok_update. }
  fold (up st_a) in Hsa. fold (up st_b) in Hsb.
  assert (bound_record wa (up st_a)
          = Some (l, set_childrenRendered true (set_rendered true r_a))) as Hba2
    by (unfold up; by do 2 apply bound_record_update).
  assert (bound_record wb (up st_b)
          = Some (l, set_childrenRendered true (set_rendered true r_b))) as Hbb2
    by (unfold up; by do 2 apply bound_record_update).
  rewrite (forSomeChildren_visit _ _ _ _ _ _ Hba2) in Hsa.
  rewrite (forSomeChildren_visit _ _ _ _ _ _ Hbb2) in Hsb.
  change (children (set_childrenRendered true (set_rendered true r_a)))
    with (children r_a) in Hsa.
  change (children (set_childrenRendered true (set_rendered true r_b)))
    with (children r_b) in Hsb.
  rewrite Hch in Hsb.
  assert (sa = sb) as ->; [|done].
  assert (same_records (up st_a) (up st_b)) as Hsame_up.
  { eapply same_records_trans;
      [apply same_records_sym, same_records_frame, Fup|].
    eapply same_records_trans; [exact Hsame | apply same_records_frame, Fup]. }
  refine (visit_in_order_same
            (λ w i n, _getHTML sub fuel_a w i n (d_a + 1))
            (λ w i n, _getHTML sub fb w i n (d_b + 1))
            _ _ _ _ _ _ _ _ _ _ _ Hsame_up (Hokup _ Hoka) (Hokup _ Hokb) Hsa Hsb).
  intros c wa' wb' i n st1 st2 h1 h2 st1' st2' Hs Hok1 Hok2 Hw1 Hw2 H1 H2.
  split; [exact (IH fb c wa' wb' i n _ _ st1 st2 _ _ _ _ Hs Hok1 Hok2 Hw1 Hw2 H1 H2)|].
  split; [|split; [exact (_getHTML_pool_ok sub _ _ _ _ _ _ _ _ Hok1 H1)
                  |exact (_getHTML_pool_ok sub _ _ _ _ _ _ _ _ Hok2 H2)]].
  eapply same_records_trans;
    [apply same_records_sym, same_records_frame; eapply _getHTML_frame; exact H1|].
  eapply same_records_trans; [exact Hs|].
  apply same_records_frame. eapply _getHTML_frame; exact H2.
Qed.

(** X15: the markup is made of the records alone.  Two calls of
    [_getHTML] on instances bound to the same record, with the same
    index and number of siblings, in two states whose records differ in
    their render flags at most, give the same markup: it depends neither
    on what was rendered before nor on which instances the pool hands
    out.  So rendering again gives the same markup.  Where the tree can
    be rendered, both calls return. *)
Theorem X15_markup_depends_on_records_only this index nSiblings depth0 st l r :
  bound_record this st = Some (l, r) →
  pool_ok st →
  (∀ fuel html st1,
     _getHTML sub fuel this index nSiblings depth0 st = Some (html, st1) →
     ∀ st2 w, same_records st1 st2 → pool_ok st2 → _node st2 !! w = Some l →
       ∀ fuel' depth' html' st3,
         _getHTML sub fuel' w index nSiblings depth' st2 = Some (html', st3) →
         html' = html) ∧
  (∀ D n fuel, renderable D n l st = true → pool_wf st → (D + n ≤ fuel)%nat →
     ∃ html st1 st2,
       _getHTML sub fuel this index nSiblings depth0 st = Some (html, st1) ∧
       _getHTML sub fuel this index nSiblings depth0 st1 = Some (html, st2)).
Proof.
  intros Hb Hok. pose proof Hb as [Hw _]%bound_record_Some.
  assert (∀ fuel html st1,
            _getHTML sub fuel this index nSiblings depth0 st = Some (html, st1) →
            ∀ st2 w, same_records st1 st2 → pool_ok st2 → _node st2 !! w = Some l →
              ∀ fuel' depth' html' st3,
                _getHTML sub fuel' w index nSiblings depth' st2 = Some (html', st3) →
                html' = html) as Hsame.
  { intros fuel html st1 H st2 w Hs Hok2 Hw2 fuel' depth' html' st3 H'.
    symmetry. eapply (_getHTML_same fuel fuel' l this w); [| | | | |exact H|exact H']; eauto.
    eapply same_records_trans; [|exact Hs].
    apply same_records_frame. eapply _getHTML_frame; exact H. }
  split; [exact Hsame|].
  intros D n fuel Hr Hwf Hfuel.
  destruct (_getHTML_total sub D n fuel this l index nSiblings depth0 st)
    as (html & st1 & H1); eauto.
  destruct (_getHTML_keeps_discipline sub _ _ _ _ _ _ _ _ Hok Hwf H1)
    as (F1 & Hok1 & Hwf1 & (Hn1 & _)).
  destruct (_getHTML_total sub D n fuel this l index nSiblings depth0 st1)
    as (html' & st2 & H2); eauto.
  { by rewrite (renderable_frame _ _ _ _ _ F1). }
  { by rewrite Hn1. }
  exists html, st1, st2. split; [done|].
  rewrite H2. f_equal. f_equal.
  eapply (Hsame fuel html st1 H1 st1 this); eauto.
  - split; [|done]. intros l0. by destruct (nodes st1 !! l0); constructor.
  - by rewrite Hn1.
Qed.

End Purity.

Lemma X15_markup_depends_on_records_only_witness :
  ∃ st1 st2,
    _getHTML plain_sub 5 3%nat 0 1 0 (xyz_state false) = Some ("top[x[]y[]z[]]", st1) ∧
    _getHTML plain_sub 5 3%nat 0 1 0 st1 = Some ("top[x[]y[]z[]]", st2).
Proof.
  destruct (X15_markup_depends_on_records_only plain_sub 3%nat 0 1 0 (xyz_state false)
              1%nat
              (Record (Some (Named "top")) (Some "top") None JUndefined false
                 (Some [2%nat; 3%nat; 4%nat]) (Some 0%nat) false false None)
              eq_refl (pool_ok_xyz false)) as [_ Htwice].
  destruct (Htwice 3%nat 2%nat 5%nat eq_refl (pool_wf_xyz false) (le_n 5))
    as (html & st1 & st2 & H1 & H2).
  exists st1, st2.
  assert (html = "top[x[]y[]z[]]") as <-; [|split; [exact H1 | exact H2]].
  vm_compute in H1. by injection H1 as <- _.
Defined.

(** ** The answer of the loader *)

Lemma each_inv (P : state → Prop) (f : loc → state → option state) :
  (∀ x st st', P st → f x st = Some st' → P st') →
  ∀ xs st st', P st → each f xs st = Some st' → P st'.
Proof.
  intros Hf. induction xs as [|x xs IH]; intros st st' HP H.
  - simpl in H. by simplify_eq.
  - cbn [each] in H. destruct (f x st) as [st1|] eqn:E; [|done].
    cbn [mbind option_bind] in H. eauto.
Qed.

Lemma init_le_refl loader r : init_le loader r r.
Proof. by split. Qed.

Lemma init_le_trans loader r1 r2 r3 :
  init_le loader r1 r2 → init_le loader r2 r3 → init_le loader r1 r3.
Proof.
  intros (E1 & L1 & I1) (E2 & L2 & I2). split; [congruence|]. split.
  - intros H. rewrite L2, L1; done.
  - intros H. rewrite I2; [by apply I1|]. by rewrite I1.
Qed.

Lemma init_frame_refl st : init_frame st st.
Proof.
  split; try done. intros l. destruct (nodes st !! l); constructor.
  apply init_le_refl.
Qed.

Lemma init_frame_trans st1 st2 st3 :
  init_frame st1 st2 → init_frame st2 st3 → init_frame st1 st3.
Proof.
  intros [N1 ? ? ? L1 ?] [N2 ? ? ? ? ?]. split; try congruence.
  intros l. specialize (N1 l). specialize (N2 l). rewrite L1 in N2.
  destruct N1 as [r1 r2 H12|]; inversion N2; subst; constructor.
  eapply init_le_trans; eauto.
Qed.

Lemma init_frame_update st l f r :
  nodes st !! l = Some r → init_le (dynamicLoader st) r (f r) →
  init_frame st (update l f st).
Proof.
  intros Hl Hf. split; try done. intros l'.
  destruct (decide (l = l')) as [<-|Hne].
  - rewrite lookup_update, Hl. by constructor.
  - rewrite lookup_update_ne by done. destruct (nodes st !! l'); constructor.
    apply init_le_refl.
Qed.

Lemma init_frame_set_guid st g : init_frame st (set_guid g st).
Proof.
  split; try done. intros l. simpl. destruct (nodes st !! l); constructor.
  apply init_le_refl.
Qed.

Lemma nodes_set_guid g st : nodes (set_guid g st) = nodes st.
Proof. done. Qed.

(** One child in the hands of [_initNodes], before its own children are
    walked. *)
Lemma init_child_frame parent child st rc :
  nodes st !! child = Some rc →
  let st1 := update child (set_parent (Some parent)) st in
  let st2 := match id rc with
             | Some _ => st1
             | None => set_guid (S (guid st1))
                         (update child (set_id (Some (Guid (guid st1)))) st1)
             end in
  let st3 := if negb (has_children rc) && negb (dynamicLoader st2)
             then update child (set_isLeaf true) st2 else st2 in
  init_frame st st3 ∧
  ∃ rc3, nodes st3 !! child = Some rc3 ∧ _parent rc3 = Some parent ∧
         children rc3 = children rc ∧
         ∀ a, a ≠ child → nodes st3 !! a = nodes st !! a.
Proof.
  intros Hc st1 st2 st3.
  assert (init_frame st st1) as F1.
  { apply (init_frame_update st child _ rc Hc). by split. }
  assert (nodes st1 !! child = Some (set_parent (Some parent) rc)) as Hc1
    by (unfold st1; by rewrite lookup_update, Hc).
  assert (init_frame st st2 ∧
          ∃ rc2, nodes st2 !! child = Some rc2 ∧ _parent rc2 = Some parent ∧
                 children rc2 = children rc ∧
                 ∀ a, a ≠ child → nodes st2 !! a = nodes st !! a) as [F2 (rc2 & Hc2 & Hp2 & Hch2 & Ho2)].
  { unfold st2. destruct (id rc) as [i|] eqn:Hid.
    - split; [done|]. eexists. split; [exact Hc1|]. split; [done|]. split; [done|].
      intros a Ha. unfold st1. by rewrite lookup_update_ne.
    - split.
      + eapply init_frame_trans; [exact F1|].
        eapply init_frame_trans; [|apply init_frame_set_guid].
        apply (init_frame_update st1 child _ _ Hc1). split; [done|]. split; [done|].
        simpl. rewrite Hid. by intros [? ?].
      + eexists. split; [by rewrite nodes_set_guid, lookup_update, Hc1|].
        split; [done|]. split; [done|]. intros a Ha.
        rewrite nodes_set_guid, lookup_update_ne by done.
        unfold st1. by rewrite lookup_update_ne. }
  unfold st3. destruct (negb (has_children rc) && negb (dynamicLoader st2)) eqn:Hleaf.
  - split.
    + eapply init_frame_trans; [exact F2|].
      apply (init_frame_update st2 child _ _ Hc2). split; [done|]. split; [|done].
      apply andb_true_iff in Hleaf as [_ Hl]. apply negb_true_iff in Hl.
      rewrite Hl. done.
    + eexists. split; [by rewrite lookup_update, Hc2|].
      split; [done|]. split; [done|]. intros a Ha.
      rewrite lookup_update_ne by done. by apply Ho2.
  - split; [done|]. eauto.
Qed.

Lemma _initNodes_frame fuel :
  ∀ parent st st', _initNodes fuel parent st = Some st' → init_frame st st'.
Proof.
  induction fuel as [|fuel IH]; intros parent st st' H; [done|].
  cbn [_initNodes] in H. destruct (nodes st !! parent) as [r|]; [|done].
  cbn [mbind option_bind] in H.
  eapply (each_inv (init_frame st)); [|apply init_frame_refl|exact H].
  intros child st0 st0' F0 Hstep. cbv beta in Hstep.
  destruct (nodes st0 !! child) as [rc|] eqn:Hc; [|done].
  cbn [mbind option_bind] in Hstep.
  destruct (init_child_frame parent child st0 rc Hc) as [F3 _].
  apply IH in Hstep. eapply init_frame_trans; [exact F0|].
  eapply init_frame_trans; [exact F3 | exact Hstep].
Qed.

Lemma pool_ok_init_frame st st' : init_frame st st' → pool_ok st → pool_ok st'.
Proof.
  intros F Hok l r' Hl'. pose proof (init_nodes _ _ F l) as N. rewrite Hl' in N.
  inversion N as [r ? [E _] Hr |]; subst. symmetry in Hr.
  specialize (Hok l r Hr). unfold held_ok in *.
  rewrite (init_node _ _ F), (init_pool _ _ F), (init_created _ _ F).
  assert (_held r' = _held r) as -> by (apply (f_equal _held) in E; by destruct r, r').
  exact Hok.
Qed.

Lemma chain_head fuel l st x count :
  depth_loop fuel count l st = Some x → l ∈ chain fuel l st.
Proof. destruct fuel; [done|]. intros _. simpl. apply list_elem_of_here. Qed.

(** The walk up depends on the [_parent] links it passes only. *)
Lemma depth_loop_agree st st' fuel :
  ∀ count l,
    (∀ a, a ∈ chain fuel l st →
          (_parent <$> nodes st' !! a) = (_parent <$> nodes st !! a)) →
    depth_loop fuel count l st' = depth_loop fuel count l st.
Proof.
  induction fuel as [|fuel IH]; intros count l Hsame; [done|].
  cbn [depth_loop]. pose proof (Hsame l) as Hhere.
  specialize (Hhere ltac:(simpl; apply list_elem_of_here)).
  destruct (nodes st !! l) as [r|] eqn:Hl, (nodes st' !! l) as [r'|] eqn:Hl';
    simpl in Hhere; try done.
  injection Hhere as Hhere. cbn [mbind option_bind]. rewrite Hhere.
  destruct (_parent r) as [p|] eqn:Hp; [|done]. apply IH.
  intros a Ha. apply Hsame. simpl. rewrite Hl, Hp. by apply list_elem_of_further.
Qed.

(** [_initNodes] over children that have no children of their own. *)
Lemma each_init_leaves fuel l (cs : list loc) (F : loc → state → option state) st0 :
  (∀ child st, F child st =
     rc ← nodes st !! child;
     let st1 := update child (set_parent (Some l)) st in
     let st2 := match id rc with
                | Some _ => st1
                | None => set_guid (S (guid st1))
                            (update child (set_id (Some (Guid (guid st1)))) st1)
                end in
     let st3 := if negb (has_children rc) && negb (dynamicLoader st2)
                then update child (set_isLeaf true) st2 else st2 in
     _initNodes (S fuel) child st3) →
  ∀ rest st,
    Forall (λ c, c ∈ cs) rest →
    (∀ a, a ∉ cs → nodes st !! a = nodes st0 !! a) →
    (∀ c, c ∈ cs → (has_children <$> nodes st !! c) = Some false) →
    ∃ st',
      each F rest st = Some st' ∧
      (∀ a, a ∉ cs → nodes st' !! a = nodes st0 !! a) ∧
      (∀ c, c ∈ cs → (has_children <$> nodes st' !! c) = Some false) ∧
      (∀ c, c ∈ rest ∨ (_parent <$> nodes st !! c) = Some (Some l) →
            (_parent <$> nodes st' !! c) = Some (Some l)).
Proof.
  intros HF. induction rest as [|c rest IH]; intros st Hrest Hout Hleaf.
  - exists st. split; [done|]. split; [done|]. split; [done|].
    intros c [Hc|Hc]; [by apply elem_of_nil in Hc | done].
  - apply Forall_cons in Hrest as [Hc Hrest]. cbn [each]. rewrite HF.
    pose proof (Hleaf c Hc) as Hlc.
    destruct (nodes st !! c) as [rc|] eqn:Hnc; [|done]. simpl in Hlc.
    injection Hlc as Hlc. cbn [mbind option_bind].
    destruct (init_child_frame l c st rc Hnc) as [_ (rc3 & Hc3 & Hp3 & Hch3 & Ho3)].
    cbv zeta in Hc3, Ho3 |- *.
    match type of Hc3 with nodes ?s !! _ = _ => set (st3 := s) in * end.
    assert (_initNodes (S fuel) c st3 = Some st3) as ->.
    { cbn [_initNodes]. rewrite Hc3. cbn [mbind option_bind].
      unfold has_children in Hlc. rewrite Hch3.
      by destruct (children rc) as [[|? ?]|]. }
    cbn [mbind option_bind].
    destruct (IH st3) as (st' & -> & Hout' & Hleaf' & Hpar'); [done| | |].
    + intros a Ha. rewrite Ho3; [by apply Hout|]. intros ->. done.
    + intros c' Hc'. destruct (decide (c' = c)) as [->|Hne].
      * rewrite Hc3. simpl. f_equal. unfold has_children in *. by rewrite Hch3.
      * rewrite Ho3 by done. by apply Hleaf.
    + exists st'. split; [done|]. split; [done|]. split; [done|].
      intros c' [Hin|Hc']; apply Hpar'.
      * apply elem_of_cons in Hin as [->|Hin]; [|by left].
        right. by rewrite Hc3; simpl; rewrite Hp3.
      * right. destruct (decide (c' = c)) as [->|Hne].
        -- by rewrite Hc3; simpl; rewrite Hp3.
        -- by rewrite Ho3.
Qed.

Lemma _initNodes_leaves fuel l cs st r :
  nodes st !! l = Some r → children r = Some cs →
  Forall (λ c, (has_children <$> nodes st !! c) = Some false) cs →
  ∃ st',
    _initNodes (S (S fuel)) l st = Some st' ∧
    (∀ a, a ∉ cs → nodes st' !! a = nodes st !! a) ∧
    (∀ c, c ∈ cs → (has_children <$> nodes st' !! c) = Some false) ∧
    (∀ c, c ∈ cs → (_parent <$> nodes st' !! c) = Some (Some l)).
Proof.
  intros Hl Hcs Hleaves. cbn [_initNodes]. rewrite Hl. cbn [mbind option_bind].
  rewrite Hcs. simpl default.
  match goal with |- context [each ?F cs st] =>
    destruct (each_init_leaves fuel l cs F st (λ _ _, eq_refl) cs st)
      as (st' & -> & Hout & Hleaf & Hpar) end.
  - apply Forall_forall. auto.
  - done.
  - intros c Hc. rewrite Forall_forall in Hleaves. by apply Hleaves.
  - exists st'. split; [done|]. split; [done|]. split; [done|].
    intros c Hc. apply Hpar. by left.
Qed.

Section LoaderAnswer.

Variable sub : string → attrs → string.

(** X16: the loader answers with an array.  When [_dynamicLoadReturn]
    returns, the record has the array as its children and is marked
    [_childrenRendered]; its identifier, if it had one, and with a
    loader configured its [isLeaf], are as they were; the page has been
    asked, in this order, to set the content of the children container
    and to swap the loading class for the expanded one, or for the
    no-children one on a leaf; and a record that got at least one child
    is not eligible for loading any more.  The call returns when the
    children answered are records without children that are not on the
    way up from the record. *)
Theorem X16_loader_answers_with_children this st l r cs :
  bound_record this st = Some (l, r) →
  (∀ fuel st',
     _dynamicLoadReturn sub fuel this (Some cs) st = Some st' →
     ∃ r' s,
       nodes st' !! l = Some r' ∧
       children r' = Some cs ∧ _childrenRendered r' = true ∧
       (is_Some (id r) → id r' = id r) ∧
       (dynamicLoader st = true → isLeaf r' = isLeaf r) ∧
       trace st' = trace st ++
                   [SetContent (ChildrenOf (id r')) s;
                    ReplaceClass (ById (id r')) CNAME_LOADING
                      (if isLeaf r' then CNAME_NOCHILDREN else CNAME_EXPANDED)] ∧
       (cs ≠ [] → eligible (dynamicLoader st') r' = false)) ∧
  (∀ D fuel,
     is_Some (depth_loop D 0 l st) →
     Forall (λ c, (c ∉ chain D l st) ∧ (has_children <$> nodes st !! c) = Some false) cs →
     pool_ok st → (D + 2 ≤ fuel)%nat →
     is_Some (_dynamicLoadReturn sub fuel this (Some cs) st)).
Proof.
  intros Hb. pose proof Hb as [Hw Hl]%bound_record_Some.
  set (st0 := update l (set_children (Some cs)) st).
  assert (nodes st0 !! l = Some (set_children (Some cs) r)) as Hl0
    by (unfold st0; by rewrite lookup_update, Hl).
  split.
  - intros fuel st' H. unfold _dynamicLoadReturn in H. rewrite Hb in H.
    cbn [mbind option_bind] in H. fold st0 in H.
    destruct (_initNodes fuel l st0) as [st_i|] eqn:Hi; [|done].
    cbn [mbind option_bind] in H.
    destruct (_renderChildren sub fuel this st_i) as [st_r|] eqn:Hr; [|done].
    cbn [mbind option_bind] in H.
    pose proof (_initNodes_frame _ _ _ _ Hi) as Fi.
    pose proof (init_nodes _ _ Fi l) as N. rewrite Hl0 in N.
    inversion N as [? r_i (Ei & Li & Ii) E1 Hli|]; subst. symmetry in Hli.
    assert (children r_i = Some cs) as Hchi
      by (apply (f_equal children) in Ei; by destruct r, r_i).
    clear Ei.
    assert (bound_record this st_i = Some (l, r_i)) as Hbi.
    { apply bound_record_Some. by rewrite (init_node _ _ Fi). }
    destruct (_renderChildren_inv sub _ _ _ _ _ _ Hbi Hr) as (d & s & st1 & _ & _ & F1 & ->).
    assert (nodes (update l (set_childrenRendered true) st_i) !! l
            = Some (set_childrenRendered true r_i)) as Hl1
      by (by rewrite lookup_update, Hli).
    destruct (frame_lookup _ _ _ _ F1 Hl1) as (r1 & Hr1 & Hle).
    simpl in H. rewrite Hr1 in H. cbn [mbind option_bind] in H. simplify_eq.
    pose proof (rec_le_fields _ _ Hle) as (Hid & _ & _ & _ & Hleaf & Hch & _).
    destruct Hle as (_ & _ & Hcr). simpl in Hid, Hleaf, Hch.
    exists r1, s. split; [done|]. split; [congruence|]. split; [by apply Hcr|].
    split; [intros Hsome; rewrite Hid; by apply Ii|].
    split; [intros Hload; rewrite Hleaf; by apply Li|].
    split.
    + simpl. rewrite (frame_trace _ _ F1). simpl. rewrite (init_trace _ _ Fi). simpl.
      rewrite Hid. by rewrite <- (assoc_L (++)).
    + intros Hne. unfold eligible, has_children. rewrite Hch, Hchi.
      destruct cs; [done|]. by rewrite andb_false_r.
  - intros D fuel [x Hx] Hcs Hok Hfuel.
    assert (l ∈ chain D l st) as Hlchain by (eapply chain_head; eauto).
    assert (∀ c, c ∈ cs → c ≠ l) as Hnotl.
    { intros c Hc ->. rewrite Forall_forall in Hcs. by destruct (Hcs l Hc). }
    destruct fuel as [|[|fuel]]; [lia|lia|].
    destruct (_initNodes_leaves fuel l cs st0 _ Hl0 eq_refl)
      as (st_i & Hi & Hout & Hleaves & Hpar).
    { rewrite Forall_forall in Hcs |- *. intros c Hc. destruct (Hcs c Hc) as [_ Hh].
      unfold st0. rewrite lookup_update_ne; [done|]. intros E. by apply (Hnotl c Hc). }
    pose proof (_initNodes_frame _ _ _ _ Hi) as Fi.
    assert (pool_ok st_i) as Hoki.
    { apply (pool_ok_init_frame st0); [done|]. unfold st0. by apply pool_ok_update. }
    assert (l ∉ cs) as Hlout by (intros Hin; by apply (Hnotl l)).
    assert (nodes st_i !! l = Some (set_children (Some cs) r)) as Hli
      by (by rewrite Hout).
    assert (depth_loop D 0 l st_i = Some x) as Hxi.
    { rewrite <- Hx. apply depth_loop_agree. intros a Ha.
      rewrite Hout.
      - unfold st0. destruct (decide (l = a)) as [<-|Hne].
        + rewrite lookup_update. by destruct (nodes st !! l).
        + by rewrite lookup_update_ne.
      - intros Hin. rewrite Forall_forall in Hcs. by destruct (Hcs a Hin). }
    assert (renderable (S D) 2 l st_i = true) as Hren.
    { cbn [renderable]. rewrite Hli. simpl default.
      rewrite (depth_loop_mono D (S D) 0 l st_i x Hxi) by lia.
      rewrite bool_decide_true by eauto. cbn [andb].
      apply forallb_forall. intros c Hc%list_elem_of_In.
      specialize (Hleaves c Hc). specialize (Hpar c Hc).
      destruct (nodes st_i !! c) as [rc|] eqn:Hc'; [|done]. simpl in Hleaves, Hpar.
      injection Hleaves as Hleaves. injection Hpar as Hpar.
      cbn [depth_loop]. rewrite Hc'. cbn [mbind option_bind]. rewrite Hpar.
      change (0 + 1) with (0 + 1)%Z. rewrite (depth_loop_shift D 0 1 l st_i), Hxi.
      simpl. unfold has_children in Hleaves.
      by destruct (children rc) as [[|? ?]|]. }
    assert (_node st_i !! this = Some l) as Hwi by (by rewrite (init_node _ _ Fi)).
    destruct (_renderChildren_total sub (S D) 1 (S (S fuel)) this st_i l Hren Hoki Hwi)
      as [st_r Hr]; [lia|].
    unfold _dynamicLoadReturn. rewrite Hb. cbn [mbind option_bind]. fold st0.
    rewrite Hi. cbn [mbind option_bind]. rewrite Hr. cbn [mbind option_bind].
    assert (bound_record this st_i = Some (l, set_children (Some cs) r)) as Hbi
      by (by apply bound_record_Some).
    destruct (_renderChildren_Some sub _ _ _ _ _ _ Hbi Hr) as (s & st1 & F1 & ->).
    destruct (frame_lookup _ _ _ _ F1 Hli) as (r1 & Hr1 & _).
    simpl. rewrite Hr1. cbn [mbind option_bind]. eauto.
Qed.

End LoaderAnswer.

Lemma X16_loader_answers_with_children_witness :
  bound_record 0%nat answer_state = Some (2%nat, leaf_record "x" 1%nat) ∧
  is_Some (_dynamicLoadReturn plain_sub 5 0%nat (Some [5%nat; 6%nat]) answer_state).
Proof.
  split; [reflexivity|].
  apply (proj2 (X16_loader_answers_with_children plain_sub 0%nat answer_state 2%nat
                  (leaf_record "x" 1%nat) [5%nat; 6%nat] eq_refl) 3%nat 5%nat).
  - by eexists.
  - repeat constructor; compute_done.
  - compute_done.
  - lia.
Defined.

(** ** The Twitter client *)

Module YTwitterFacts.
Import YTwitter.

Lemma get_assign_eq k v o : get (assign k v o) k = Some v.
Proof.
  induction o as [|[k' v'] o IH]; simpl.
  - by rewrite bool_decide_true.
  - case_bool_decide as E; simpl.
    + by rewrite bool_decide_true.
    + by rewrite bool_decide_false.
Qed.

Lemma get_assign_ne k k' v o : k ≠ k' → get (assign k v o) k' = get o k'.
Proof.
  intros Hne. induction o as [|[k0 v0] o IH]; simpl.
  - by rewrite bool_decide_false.
  - case_bool_decide as E; simpl.
    + subst k0. by rewrite !bool_decide_false.
    + by rewrite IH.
Qed.

Lemma get_remove_eq k o : get (remove k o) k = None.
Proof.
  unfold remove. induction o as [|[k0 v0] o IH]; [done|].
  rewrite filter_cons. simpl. case_decide as E; [|done].
  simpl. by rewrite bool_decide_false.
Qed.

Lemma get_remove_ne k k' o : k ≠ k' → get (remove k o) k' = get o k'.
Proof.
  intros Hne. unfold remove. induction o as [|[k0 v0] o IH]; [done|].
  rewrite filter_cons. simpl. case_decide as E; simpl.
  - by rewrite IH.
  - subst k0. rewrite bool_decide_false by done. apply IH.
Qed.

Lemma truthy_literal a s t : truthy (JStr (String a s +:+ t)) = true.
Proof. reflexivity. Qed.

Section ClientFacts.

Variable str : jsval → string.

(** X11: [whereString] binds the values.  Two parameter objects with
    the same property names, in the same order, and the same value for
    [q] if they have one, give the same text: no value but that of [q]
    goes into the statement, each other property is written as
    [name=@name]. *)
Theorem X11_whereString_binds_values (ps ps' : list (string * jsval)) :
  Forall2 (λ kv kv', kv.1 = kv'.1 ∧ (kv.1 = "q" → kv.2 = kv'.2)) ps ps' →
  whereString str (Some ps) = whereString str (Some ps').
Proof.
  intros H. unfold whereString. simpl default.
  assert (((λ kv, clause str kv.1 kv.2) <$> ps)
          = ((λ kv, clause str kv.1 kv.2) <$> ps')) as ->; [|done].
  induction H as [|[k v] [k' v'] ps ps' [Hk Hq] _ IH]; [done|].
  simpl in Hk, Hq. subst k'. rewrite !fmap_cons, IH. f_equal.
  unfold clause. simpl. case_bool_decide as E; [|done]. by rewrite (Hq E).
Qed.

(** X12: [search] renames [count].  When the caller's object has a
    truthy [count], the object that is left, which is also what the
    request binds, has it under [rpp] and no longer under [count], has
    the query under [q], and has every other property as it was; the
    request goes out without credentials. *)
Theorem X12_search_renames_count oauth searchQuery (where_ : list (string * jsval)) c :
  get where_ "count" = Some c → truthy c = true →
  ∃ req w,
    search str oauth searchQuery (Some where_) = (req, w) ∧
    params req = w ∧
    get w "count" = None ∧ get w "rpp" = Some c ∧ get w "q" = Some searchQuery ∧
    (∀ k, k ≠ "count" → k ≠ "rpp" → k ≠ "q" → get w k = get where_ k) ∧
    statement req = "SELECT * FROM twitter.search" +:+ whereString str (Some w) ∧
    proto req = "http".
Proof.
  intros Hc Ht.
  assert (has where_ "count" = true) as Hh by (unfold has; by rewrite Hc).
  unfold search. simpl default. rewrite Hh, Hc. simpl default.
  eexists _, _. split; [reflexivity|]. split; [done|].
  split; [by rewrite get_assign_ne, get_remove_eq|].
  split; [by rewrite get_assign_ne, get_remove_ne, get_assign_eq|].
  split; [by rewrite get_assign_eq|].
  split; [|done].
  intros k H1 H2 H3. by rewrite get_assign_ne, get_remove_ne, get_assign_ne.
Qed.

(** X13: [user_timeline] asks for the user it is given.  Whatever the
    caller's object holds, the object that is left and bound has [id]
    set to the user and a truthy [since_id]: the caller's if it is
    truthy, 1 otherwise; the request is an authenticated one. *)
Theorem X13_user_timeline_sets_id_and_since_id oauth user (where_ : option (list (string * jsval))) :
  ∃ req w since,
    user_timeline str oauth user where_ = (req, w) ∧
    params req = w ∧
    get w "id" = Some user ∧
    get w "since_id" = Some since ∧ truthy since = true ∧
    (has (default [] where_) "since_id" = true →
     get (default [] where_) "since_id" = Some since) ∧
    (has (default [] where_) "since_id" = false → since = JNum 1) ∧
    proto req = "https".
Proof.
  unfold user_timeline. set (w0 := default [] where_).
  assert (has (assign "id" user w0) "since_id" = has w0 "since_id") as Hhas
    by (unfold has; by rewrite get_assign_ne).
  assert (get (assign "id" user w0) "since_id" = get w0 "since_id") as Hget
    by (by rewrite get_assign_ne).
  eexists _, _, _. split; [reflexivity|]. split; [done|].
  split; [by rewrite get_assign_ne, get_assign_eq|].
  split; [by rewrite get_assign_eq|].
  rewrite Hhas, Hget. unfold has.
  destruct (get w0 "since_id") as [v|]; simpl; [|by repeat split].
  destruct (truthy v) eqn:Hv; by repeat split.
Qed.

End ClientFacts.

Lemma X11_whereString_binds_values_witness :
  whereString plain_str (Some [("id", JStr "alice"); ("count", JNum 5)])
  = whereString plain_str (Some [("id", JStr "x' OR '1'='1"); ("count", JNum 7)])
  ∧ whereString plain_str (Some [("id", JStr "alice"); ("count", JNum 5)])
    = " WHERE id=@id AND count=@count".
Proof.
  split; [|reflexivity].
  apply (X11_whereString_binds_values plain_str).
  repeat constructor; simpl; intros [=].
Defined.

Lemma X12_search_renames_count_witness :
  ∃ req w,
    search plain_str [] (JStr "rocq") (Some [("count", JNum 10); ("lang", JStr "en")])
    = (req, w) ∧
    w = [("lang", JStr "en"); ("rpp", JNum 10); ("q", JStr "rocq")] ∧
    statement req = "SELECT * FROM twitter.search WHERE lang=@lang AND rpp=@rpp AND q='rocq'".
Proof.
  destruct (X12_search_renames_count plain_str [] (JStr "rocq")
              [("count", JNum 10); ("lang", JStr "en")] (JNum 10) eq_refl eq_refl)
    as (req & w & H & _).
  exists req, w. split; [exact H|]. vm_compute in H. injection H as <- <-.
  split; reflexivity.
Defined.

(** X14: the credentials kept by the constructor come in pairs and come
    from the configuration.  [oauth] has a token exactly when it has
    the token's secret, a consumer key exactly when it has the
    consumer's secret, and every value in it is a truthy value that the
    configuration has under the same name. *)
Theorem X14_credentials_come_in_pairs (config : option (list (string * jsval))) :
  let oauth := Twitter config in
  (is_Some (get oauth "oauth_token") ↔ is_Some (get oauth "oauth_token_secret")) ∧
  (is_Some (get oauth "oauth_consumer_key") ↔ is_Some (get oauth "oauth_consumer_secret")) ∧
  ∀ k v, get oauth k = Some v → truthy v = true ∧ get (default [] config) k = Some v.
Proof.
  unfold Twitter. set (c := default [] config).
  assert (∀ k, has c k = true → ∃ v, get c k = Some v ∧ truthy v = true) as Hhas.
  { intros k H. unfold has in H. destruct (get c k) as [v|]; [eauto | done]. }
  destruct (has c "oauth_token") eqn:H1; destruct (has c "oauth_token_secret") eqn:H2;
    destruct (has c "oauth_consumer_key") eqn:H3;
    destruct (has c "oauth_consumer_secret") eqn:H4; cbn [andb];
    repeat match goal with
           | H : has c ?k = true |- _ =>
               let Hg := fresh "Hg" in
               destruct (Hhas k H) as (? & Hg & ?); rewrite ?Hg; clear H
           end;
    cbn [default from_option id assign];
    repeat (rewrite bool_decide_false by done; cbn [assign]);
    (split; [cbn; split; intros [? ?]; (done || by eexists)|]);
    (split; [cbn; split; intros [? ?]; (done || by eexists)|]);
    intros k v Hk; cbn [get] in Hk;
    repeat (case_bool_decide; [subst k; simplify_eq; done|]); done.
Qed.

End YTwitterFacts.
